(** * extract_cg.py: MP4 boundary parser, signature scanner and per-file policy

    A shallow embedding of [src/extract_cg.py].  Python integers are [Z],
    [bytes] objects are lists of [Byte.byte], a function that can raise
    returns a [result], and the loops ([while] in [parse_mp4_atoms] and in
    [extract_unity_videos]) are fixpoints over an explicit iteration budget
    whose adequacy is proved below. *)

From Stdlib Require Import String.
From Stdlib Require Import ZArith List Bool Lia Sorted.
From Stdlib Require Init.Byte Strings.Byte.
Import ListNotations.
Import Stdlib.Init.Byte.

Local Open Scope Z_scope.

(** ** Python values and primitives *)

Definition bytes := list byte.

(** [len(data)] *)
Definition len (data : bytes) : Z := Z.of_nat (length data).

(** Outcome of running a piece of Python: a value, an exception, or an
    exhausted iteration budget (the last is shown never to happen). *)
Inductive result (A : Type) : Type :=
| Done (a : A)
| Raised
| OutOfFuel.
Arguments Done {A} a.
Arguments Raised {A}.
Arguments OutOfFuel {A}.

(** Index normalisation of a slice bound: a negative bound counts from the
    end, and every bound is clamped to [0 .. len]. *)
Definition norm_index (n i : Z) : Z :=
  if i <? 0 then Z.max (i + n) 0 else Z.min i n.

(** [data[a:b]] *)
Definition py_slice (data : bytes) (a b : Z) : bytes :=
  let n := len data in
  let lo := norm_index n a in
  let hi := norm_index n b in
  if lo <? hi then firstn (Z.to_nat (hi - lo)) (skipn (Z.to_nat lo) data)
  else [].

Fixpoint bytes_eqb (x y : bytes) : bool :=
  match x, y with
  | [], [] => true
  | a :: x', b :: y' => Byte.eqb a b && bytes_eqb x' y'
  | _, _ => false
  end.

(** [data.startswith(prefix)] *)
Fixpoint startswith (prefix data : bytes) : bool :=
  match prefix, data with
  | [], _ => true
  | _ :: _, [] => false
  | a :: p', b :: d' => Byte.eqb a b && startswith p' d'
  end.

(** Lowest index [i + k] at which [sub] occurs in [l], where [i] is the
    index of the head of [l]; [-1] when there is none. *)
Fixpoint find_list (sub l : bytes) (i : Z) : Z :=
  match l with
  | [] => match sub with [] => i | _ :: _ => -1 end
  | _ :: t => if startswith sub l then i else find_list sub t (i + 1)
  end.

(** [data.find(sub, start)] *)
Definition py_find (sub data : bytes) (start : Z) : Z :=
  let lo := norm_index (len data) start in
  if len data <? start then -1
  else find_list sub (skipn (Z.to_nat lo) data) lo.

(** [sub in data] *)
Definition py_in (sub data : bytes) : bool :=
  negb (py_find sub data 0 =? -1).

Definition byte_val (b : byte) : Z := Z.of_N (Byte.to_N b).

(** [struct.unpack('>I', s)[0]]: raises [struct.error] unless [s] has
    exactly four bytes. *)
Definition unpack_be32 (s : bytes) : result Z :=
  match s with
  | [b0; b1; b2; b3] =>
      Done (Z.lor (Z.shiftl (byte_val b0) 24)
           (Z.lor (Z.shiftl (byte_val b1) 16)
           (Z.lor (Z.shiftl (byte_val b2) 8) (byte_val b3))))
  | _ => Raised
  end.

(** The tags [b'ftyp'], [b'moov'] and [b'mdat']. *)
Definition ftyp : bytes := [x66; x74; x79; x70].
Definition moov : bytes := [x6d; x6f; x6f; x76].
Definition mdat : bytes := [x6d; x64; x61; x74].

(** ** Boundary parser: [parse_mp4_atoms] *)

(** An entry [(atom_type, pos, atom_size)] of the list [atoms]. *)
Record atom : Type := mk_atom {
  atom_type : bytes;
  atom_pos : Z;
  atom_size : Z
}.

(** The [while pos < len(data) - 8] loop; [atoms] is the list built so far. *)
Fixpoint parse_loop (fuel : nat) (data : bytes) (pos : Z) (atoms : list atom)
  : result (list atom) :=
  match fuel with
  | O => OutOfFuel
  | S fuel' =>
      if pos <? len data - 8 then
        if len data <? pos + 8 then Done atoms
        else
          match unpack_be32 (py_slice data pos (pos + 4)) with
          | Done size =>
              let ty := py_slice data (pos + 4) (pos + 8) in
              if (size <? 8) || (len data - pos <? size) then Done atoms
              else parse_loop fuel' data (pos + size)
                     (atoms ++ [mk_atom ty pos size])
          | Raised => Raised
          | OutOfFuel => OutOfFuel
          end
      else Done atoms
  end.

(** Iterations granted to the loop: every iteration but the last moves
    [pos] forward by at least 8, so [len(data) - start_pos] are plenty. *)
Definition parse_fuel (data : bytes) (start_pos : Z) : nat :=
  S (Z.to_nat (len data - start_pos)).

Definition parse_mp4_atoms (data : bytes) (start_pos : Z) : result (list atom) :=
  parse_loop (parse_fuel data start_pos) data start_pos [].

(** ** Structural extraction: [extract_mp4_video] *)

Definition bind {A B : Type} (r : result A) (k : A -> result B) : result B :=
  match r with
  | Done a => k a
  | Raised => Raised
  | OutOfFuel => OutOfFuel
  end.

Notation "x <- r ;; k" := (bind r (fun x => k))
  (at level 61, r at next level, right associativity).

(** [l[-1]]: raises [IndexError] on the empty list. *)
Fixpoint py_last {A : Type} (l : list A) : result A :=
  match l with
  | [] => Raised
  | [a] => Done a
  | _ :: t => py_last t
  end.

(** Body of the [for atom_type, pos, size in atoms] loop, on the pair
    [(moov_pos, mdat_pos)]. *)
Definition mark_step (marks : option Z * option Z) (a : atom)
  : option Z * option Z :=
  if bytes_eqb (atom_type a) moov then (Some (atom_pos a), snd marks)
  else if bytes_eqb (atom_type a) mdat then (fst marks, Some (atom_pos a))
  else marks.

Definition mark_atoms (atoms : list atom) : option Z * option Z :=
  fold_left mark_step atoms (None, None).

(** The block under [if moov_pos is not None]: [Some video_data] when it
    returns, [None] when control falls out of it. *)
Definition moov_branch (data : bytes) (start_pos : Z) (atoms : list atom)
  : result (option bytes) :=
  last_atom <- py_last atoms ;;
  let end_pos := atom_pos last_atom + atom_size last_atom in
  let video_data := py_slice data start_pos end_pos in
  if startswith ftyp video_data then Done (Some video_data) else Done None.

(** The block under [if len(data) - start_pos > 1000], followed by the
    final [return None]. *)
Definition window_branch (data : bytes) (start_pos : Z) : option bytes :=
  if 1000 <? len data - start_pos then
    let end_pos := Z.min (start_pos + 100 * 1024 * 1024) (len data) in
    let video_data := py_slice data start_pos end_pos in
    if py_in moov video_data || py_in mdat video_data then Some video_data
    else None
  else None.

(** The body of the [try] block. *)
Definition extract_mp4_video_body (data : bytes) (start_pos : Z)
  : result (option bytes) :=
  atoms <- parse_mp4_atoms data start_pos ;;
  match atoms with
  | [] => Done None
  | _ :: _ =>
      structural <-
        match fst (mark_atoms atoms) with
        | Some _ => moov_branch data start_pos atoms
        | None => Done None
        end ;;
      match structural with
      | Some video_data => Done (Some video_data)
      | None => Done (window_branch data start_pos)
      end
  end.

(** [except Exception] turns every exception into [None]. *)
Definition extract_mp4_video (data : bytes) (start_pos : Z)
  : result (option bytes) :=
  match extract_mp4_video_body data start_pos with
  | Raised => Done None
  | r => r
  end.

(** ** Signature scanner: [extract_unity_videos] *)

Inductive out_dir : Type := VideosDir | UnityPyDir.

(** What a run does to the outside, in order.  [Candidate] records a call
    [extract_mp4_video(content, start_pos)] made by the scanner. *)
Inductive event : Type :=
| Mkdir (d : out_dir)
| Candidate (start_pos : Z)
| WriteVideo (video_index : Z) (video_data : bytes)
| WriteUnityPy (obj_type : string) (i : nat) (raw_data : bytes).

(** Truth value of an optional [bytes] object: [None] and [b''] are false. *)
Definition truthy (v : option bytes) : bool :=
  match v with
  | Some (_ :: _) => true
  | _ => false
  end.

Definition payload (v : option bytes) : bytes :=
  match v with Some b => b | None => [] end.

(** The [while True] loop of the scanner.  The log is returned together
    with the outcome since what was written stays written. *)
Fixpoint scan_loop (fuel : nat) (content : bytes) (pos video_index count : Z)
  (log : list event) : list event * result Z :=
  match fuel with
  | O => (log, OutOfFuel)
  | S fuel' =>
      let pos := py_find ftyp content pos in
      if pos =? -1 then (log, Done count)
      else if pos <? 4 then scan_loop fuel' content (pos + 1) video_index count log
      else
        let start_pos := pos - 4 in
        if start_pos <? 0 then
          scan_loop fuel' content (pos + 1) video_index count log
        else
          let log := log ++ [Candidate start_pos] in
          match extract_mp4_video content start_pos with
          | Done video_data =>
              if truthy video_data && (1000 <? len (payload video_data)) then
                scan_loop fuel' content (pos + 4) (video_index + 1) (count + 1)
                  (log ++ [WriteVideo video_index (payload video_data)])
              else scan_loop fuel' content (pos + 4) video_index count log
          | Raised => (log, Raised)
          | OutOfFuel => (log, OutOfFuel)
          end
  end.

(** The cursor moves forward at every iteration and the search fails once
    it is past the end. *)
Definition scan_fuel (content : bytes) : nat := S (S (length content)).

(** [content] is what [f.read()] returned for [file_path]. *)
Definition extract_unity_videos (content : bytes) : list event * result Z :=
  match scan_loop (scan_fuel content) content 0 0 0 [Mkdir VideosDir] with
  | (log, Raised) => (log, Done 0)
  | r => r
  end.

(** ** Structured path: [extract_unitypy_videos] *)

(** UnityPy is an external library; what the function observes of it is
    modelled by the following types.  A value found under one of the probed
    attribute names is a [bytes] object, a stream whose [seek(0); read()]
    gives bytes or raises, or something else. *)
Inductive attr_value : Type :=
| VBytes (b : bytes)
| VStream (r : option bytes)
| VOther.

(** The object returned by [obj.read()], as its attributes. *)
Definition py_object := list (string * attr_value).

Record unity_object : Type := mk_object {
  type_name : option string;      (* [obj.type.name] when both attributes exist *)
  read : option py_object         (* [None]: [obj.read()] raises *)
}.

(** Outcome of [import UnityPy] and [UnityPy.load(file_path)]. *)
Inductive adapter : Type :=
| ImportFails
| LoadFails
| Loaded (objects : list unity_object).

Fixpoint getattr (data : py_object) (attr : string) : option attr_value :=
  match data with
  | [] => None
  | (k, v) :: rest => if String.eqb k attr then Some v else getattr rest attr
  end.

(** The [for attr in [...]] loop: the value of [raw_data] after it. *)
Fixpoint probe_attrs (attrs : list string) (data : py_object) : option bytes :=
  match attrs with
  | [] => None
  | attr :: rest =>
      match getattr data attr with
      | Some (VBytes b) => Some b
      | Some (VStream (Some b)) => Some b
      | _ => probe_attrs rest data
      end
  end.

Definition data_attrs : list string :=
  ["m_VideoData"; "m_MovieData"; "data"; "bytes"; "m_Data"]%string.

Definition video_types : list string := ["VideoClip"; "MovieTexture"]%string.

(** One iteration of [for i, obj in enumerate(objects)]: the file it writes,
    if any; an exception inside it is swallowed by [continue]. *)
Definition export_object (i : nat) (obj : unity_object) : result (option event) :=
  let obj_type :=
    match type_name obj with Some n => n | None => "Unknown"%string end in
  if negb (existsb (String.eqb obj_type) video_types) then Done None
  else
    match read obj with
    | None => Done None
    | Some data =>
        let raw_data := probe_attrs data_attrs data in
        if truthy raw_data && (1000 <? len (payload raw_data)) then
          if startswith ftyp (payload raw_data) then
            Done (Some (WriteUnityPy obj_type i (payload raw_data)))
          else
            let ftyp_pos := py_find ftyp (payload raw_data) 0 in
            if negb (ftyp_pos =? -1) && (4 <=? ftyp_pos) then
              let start_pos := ftyp_pos - 4 in
              match extract_mp4_video (payload raw_data) start_pos with
              | Done video_data =>
                  if truthy video_data then
                    Done (Some (WriteUnityPy obj_type i (payload video_data)))
                  else Done None
              | Raised => Done None
              | OutOfFuel => OutOfFuel
              end
            else Done None
        else Done None
    end.

Fixpoint export_objects (i : nat) (objects : list unity_object)
  (extracted_count : Z) (log : list event) : list event * result Z :=
  match objects with
  | [] => (log, Done extracted_count)
  | obj :: rest =>
      match export_object i obj with
      | Done (Some written) =>
          export_objects (S i) rest (extracted_count + 1) (log ++ [written])
      | Done None => export_objects (S i) rest extracted_count log
      | Raised => export_objects (S i) rest extracted_count log
      | OutOfFuel => (log, OutOfFuel)
      end
  end.

Definition extract_unitypy_videos (a : adapter) : list event * result Z :=
  match a with
  | ImportFails => ([], Done 0)
  | LoadFails => ([Mkdir UnityPyDir], Done 0)
  | Loaded objects => export_objects 0 objects 0 [Mkdir UnityPyDir]
  end.

(** ** Per-file policy: the body of the loop of [main] *)

(** An input file as the two paths see it. *)
Record input_file : Type := mk_file {
  unitypy_view : adapter;
  content : bytes
}.

Definition process_file (f : input_file) : list event * result Z :=
  match extract_unitypy_videos (unitypy_view f) with
  | (log, Done extracted) =>
      if extracted =? 0 then
        let '(log', r) := extract_unity_videos (content f) in (log ++ log', r)
      else (log, Done extracted)
  | r => r
  end.

(** The [for i, file_path in enumerate(files, 1)] loop over files whose
    size can be read; [main_run] below adds the call of [os.path.getsize]. *)
Fixpoint main_loop (files : list input_file) (total_extracted : Z)
  (log : list event) : list event * result Z :=
  match files with
  | [] => (log, Done total_extracted)
  | f :: rest =>
      match process_file f with
      | (log', Done extracted) =>
          main_loop rest (total_extracted + extracted) (log ++ log')
      | (log', r) => (log ++ log', r)
      end
  end.

(** ** Sample buffers *)

Definition be32 (n : Z) : bytes :=
  map (fun k => match Byte.of_N (Z.to_N (Z.shiftr n k mod 256)) with
                | Some b => b
                | None => x00
                end) [24; 16; 8; 0].

(** A record: big-endian total length, tag, body. *)
Definition record (tag body : bytes) : bytes :=
  be32 (8 + len body) ++ tag ++ body.

Definition zeros (n : nat) : bytes := repeat x00 n.

(** A header record with an 8-byte body, an empty [moov] record and an
    [mdat] record with a 4-byte body: 36 bytes. *)
Definition three_records : bytes :=
  record ftyp (zeros 8) ++ record moov [] ++ record mdat (zeros 4).

Definition three_records_atoms : list atom :=
  [mk_atom ftyp 0 16; mk_atom moov 16 8; mk_atom mdat 24 12].

(** ** Vocabulary of the statements *)

Definition map_result {A B : Type} (f : A -> B) (r : result A) : result B :=
  match r with
  | Done a => Done (f a)
  | Raised => Raised
  | OutOfFuel => OutOfFuel
  end.

(** The header of record [a] is what the buffer holds at [atom_pos a]. *)
Definition header_at (data : bytes) (a : atom) : Prop :=
  atom_pos a < len data - 8
  /\ unpack_be32 (py_slice data (atom_pos a) (atom_pos a + 4)) = Done (atom_size a)
  /\ atom_type a = py_slice data (atom_pos a + 4) (atom_pos a + 8).

(** The invariant of a record: [length >= 8] and
    [offset + length <= buffer_length]. *)
Definition record_ok (data : bytes) (a : atom) : Prop :=
  8 <= atom_size a /\ atom_pos a + atom_size a <= len data.

(** [record[i+1].offset == record[i].offset + record[i].length] *)
Definition consecutive (atoms : list atom) : Prop :=
  forall i a b,
    nth_error atoms i = Some a -> nth_error atoms (S i) = Some b ->
    atom_pos b = atom_pos a + atom_size a.

(** The records tile the buffer from [p] on. *)
Fixpoint chained (p : Z) (atoms : list atom) : Prop :=
  match atoms with
  | [] => True
  | a :: rest => atom_pos a = p /\ chained (atom_pos a + atom_size a) rest
  end.

(** A record of type [moov] is among [atoms]. *)
Definition has_moov (atoms : list atom) : Prop :=
  exists a, In a atoms /\ atom_type a = moov.

(** [data[start_pos : last_atom[1] + last_atom[2]]] *)
Definition structural_slice (data : bytes) (start_pos : Z) (last_atom : atom)
  : bytes :=
  py_slice data start_pos (atom_pos last_atom + atom_size last_atom).

(** [data[start_pos : min(start_pos + 100 MiB, len(data))]] *)
Definition window (data : bytes) (start_pos : Z) : bytes :=
  py_slice data start_pos (Z.min (start_pos + 104857600) (len data)).

(** A header, a [moov] record and filler up to 1016 bytes. *)
Definition moov_then_filler : bytes :=
  record ftyp [] ++ record moov [] ++ zeros 1000.

(** A header, an [mdat] record and filler up to exactly 1000 bytes. *)
Definition mdat_1000 : bytes :=
  record ftyp [] ++ record mdat [] ++ zeros 984.

(** A buffer of 1718909296 bytes: the bytes [ftypmoov] and zeros.  Its
    first four bytes, read as a big-endian size, give its own length. *)
Definition tagged_as_size (tail : bytes) : bytes := ftyp ++ moov ++ tail.
Definition huge_tail : bytes := repeat x00 (Z.to_nat 1718909288).
Definition huge : bytes := tagged_as_size huge_tail.

(** [sub] occurs in [data] at offset [p]. *)
Definition occurs_at (sub data : bytes) (p : Z) : Prop :=
  0 <= p /\ startswith sub (skipn (Z.to_nat p) data) = true.

(** An occurrence of the signature at offset 0 and a header at offset 4. *)
Definition early_signature : bytes := ftyp ++ record ftyp [] ++ zeros 4.

(** What the loop of the scanner adds to the log: calls, and writes of
    more than 1000 bytes. *)
Definition scan_event (e : event) : Prop :=
  match e with
  | Candidate _ => True
  | WriteVideo _ v => 1000 < len v
  | _ => False
  end.

(** What the structured path adds to the log besides its directory. *)
Definition unitypy_event (e : event) : Prop :=
  match e with
  | WriteUnityPy _ _ v => 1000 < len v
  | _ => False
  end.

(** A write puts more than 1000 bytes on disk. *)
Definition long_write (e : event) : Prop :=
  match e with
  | WriteVideo _ v | WriteUnityPy _ _ v => 1000 < len v
  | _ => True
  end.

(** The scanner was run: its output directory was created. *)
Definition scanner_ran (log : list event) : Prop := In (Mkdir VideosDir) log.

(** A file UnityPy cannot load, holding a 1001-byte candidate. *)
Definition unloadable_file : input_file :=
  mk_file LoadFails (mdat_1000 ++ [x00]).

(** The value of [pos] when the loop of [parse_mp4_atoms] is left, given
    the records it appended. *)
Definition cursor_after (start_pos : Z) (atoms : list atom) : Z :=
  fold_left (fun _ a => atom_pos a + atom_size a) atoms start_pos.

(** The indices under which the log writes [video_<N>.mp4], in order. *)
Definition video_indices (log : list event) : list Z :=
  flat_map (fun e => match e with WriteVideo i _ => [i] | _ => [] end) log.

(** The start offsets the log passes to [extract_mp4_video], in order. *)
Definition candidate_starts (log : list event) : list Z :=
  flat_map (fun e => match e with Candidate s => [s] | _ => [] end) log.

(** [from, from + 1, ...], [n] numbers. *)
Fixpoint count_up (from : Z) (n : nat) : list Z :=
  match n with
  | O => []
  | S n' => from :: count_up (from + 1) n'
  end.

(** The object indices under which the log writes
    [unitypy_<type>_<i>.mp4], in order. *)
Definition unitypy_indices (log : list event) : list nat :=
  flat_map (fun e => match e with WriteUnityPy _ i _ => [i] | _ => [] end) log.

(** Number of files the log writes. *)
Definition count_writes (log : list event) : nat :=
  (length (video_indices log) + length (unitypy_indices log))%nat.


(** ** Collecting the input files: the first part of [main] *)

(** [filename.startswith('.')] *)
Definition hidden (filename : string) : bool := String.prefix "." filename.

(** One triple [(root, dirnames, filenames)] yielded by [os.walk]. *)
Definition walk_entry : Type := (string * list string * list string)%type.

(** The [for filename in filenames] loop; [files] is the list so far and
    [join] stands for [os.path.join]. *)
Fixpoint collect_names (join : string -> string -> string) (root : string)
  (filenames : list string) (files : list string) : list string :=
  match filenames with
  | [] => files
  | filename :: rest =>
      if hidden filename then collect_names join root rest files
      else collect_names join root rest (files ++ [join root filename])
  end.

(** The [for root, _, filenames in os.walk(input_path)] loop. *)
Fixpoint collect_walk (join : string -> string -> string)
  (walk : list walk_entry) (files : list string) : list string :=
  match walk with
  | [] => files
  | (root, _, filenames) :: rest =>
      collect_walk join rest (collect_names join root filenames files)
  end.

(** [files] after the [if os.path.isfile(input_path)] statement; [walk] is
    what [os.walk(input_path)] yields. *)
Definition collect_files (join : string -> string -> string)
  (input_path : string) (isfile : bool) (walk : list walk_entry)
  : list string :=
  if isfile then [input_path] else collect_walk join walk [].

(** The non-hidden names of each directory, joined to its path. *)
Definition visible_files (join : string -> string -> string)
  (walk : list walk_entry) : list string :=
  flat_map
    (fun entry : walk_entry =>
       map (join (fst (fst entry)))
         (filter (fun filename => negb (hidden filename)) (snd entry)))
    walk.

(** ** The loop of [main] with its call of [os.path.getsize] *)




(** * Properties *)

(** ** Slices, prefixes and searches *)

Lemma len_nonneg (data : bytes) : 0 <= len data.
Proof. unfold len; lia. Qed.

Lemma len_app (x y : bytes) : len (x ++ y) = len x + len y.
Proof. unfold len; rewrite length_app; lia. Qed.

Lemma norm_index_inside (n i : Z) : 0 <= i <= n -> norm_index n i = i.
Proof.
  intros H; unfold norm_index.
  destruct (Z.ltb_spec i 0); lia.
Qed.

Lemma norm_index_range (n i : Z) : 0 <= n -> 0 <= norm_index n i <= n.
Proof.
  intros H; unfold norm_index.
  destruct (Z.ltb_spec i 0); lia.
Qed.

(** Inside the buffer a slice is the usual sub-list. *)
Lemma py_slice_inside (data : bytes) (a b : Z) :
  0 <= a -> a <= b -> b <= len data ->
  py_slice data a b = firstn (Z.to_nat (b - a)) (skipn (Z.to_nat a) data).
Proof.
  intros Ha Hab Hb; unfold py_slice; cbv zeta.
  rewrite !norm_index_inside by lia.
  destruct (Z.ltb_spec a b) as [Hlt | Hge]; [reflexivity|].
  replace (b - a) with 0 by lia; reflexivity.
Qed.

Lemma len_skipn (data : bytes) (k : nat) :
  len (skipn k data) = Z.max 0 (len data - Z.of_nat k).
Proof. unfold len; rewrite length_skipn; lia. Qed.

Lemma len_firstn (data : bytes) (k : nat) :
  len (firstn k data) = Z.min (Z.of_nat k) (len data).
Proof. unfold len; rewrite length_firstn; lia. Qed.

Lemma len_py_slice (data : bytes) (a b : Z) :
  0 <= a -> a <= b -> b <= len data -> len (py_slice data a b) = b - a.
Proof.
  intros Ha Hab Hb; rewrite py_slice_inside by assumption.
  rewrite len_firstn, len_skipn; lia.
Qed.

Lemma py_slice_all (data : bytes) : py_slice data 0 (len data) = data.
Proof.
  pose proof (len_nonneg data).
  rewrite py_slice_inside by lia.
  cbn [Z.to_nat skipn]; rewrite Z.sub_0_r; unfold len.
  rewrite Nat2Z.id; apply firstn_all.
Qed.

Lemma bytes_eqb_eq (x y : bytes) : bytes_eqb x y = true <-> x = y.
Proof.
  revert y; induction x as [|a x IH]; intros [|b y]; cbn; try (split; congruence).
  rewrite andb_true_iff, IH; split.
  - intros [Hab ->]; apply Byte.byte_dec_bl in Hab; congruence.
  - intros [= -> ->]; split; [apply Byte.byte_dec_lb|]; reflexivity.
Qed.

Lemma startswith_app (prefix data : bytes) :
  startswith prefix data = true <-> exists rest, data = prefix ++ rest.
Proof.
  revert data; induction prefix as [|a p IH]; intros data; cbn.
  - split; [exists data; reflexivity | reflexivity].
  - destruct data as [|b d].
    + split; [discriminate | intros [rest H]; discriminate].
    + rewrite andb_true_iff, IH; split.
      * intros [Hab [rest ->]]; apply Byte.byte_dec_bl in Hab; subst b.
        exists rest; reflexivity.
      * intros [rest [= -> ->]]; split; [apply Byte.byte_dec_lb; reflexivity|].
        exists rest; reflexivity.
Qed.

Lemma unpack_be32_defined (s : bytes) :
  length s = 4%nat -> exists v, unpack_be32 s = Done v.
Proof.
  destruct s as [|b0 [|b1 [|b2 [|b3 [|b4 s]]]]]; cbn; try discriminate.
  intros _; eexists; reflexivity.
Qed.

Lemma unpack_be32_fuel_free (s : bytes) : unpack_be32 s <> OutOfFuel.
Proof.
  destruct s as [|b0 [|b1 [|b2 [|b3 [|b4 s]]]]]; cbn; discriminate.
Qed.

(** ** The record walk *)

(** The records already collected are a prefix of the result. *)
Lemma parse_loop_acc (fuel : nat) (data : bytes) :
  forall pos atoms,
    parse_loop fuel data pos atoms
    = map_result (app atoms) (parse_loop fuel data pos []).
Proof.
  induction fuel as [|fuel IH]; intros pos atoms; cbn [parse_loop].
  - reflexivity.
  - destruct (pos <? len data - 8); [|cbn; now rewrite app_nil_r].
    destruct (len data <? pos + 8); [cbn; now rewrite app_nil_r|].
    destruct (unpack_be32 _) as [size| |]; cbn [map_result]; try reflexivity.
    destruct ((size <? 8) || (len data - pos <? size));
      [cbn; now rewrite app_nil_r|].
    rewrite IH, (IH _ ([] ++ _)); cbn [app].
    destruct (parse_loop fuel data (pos + size) []); cbn; try reflexivity.
    now rewrite <- app_assoc.
Qed.

(** One iteration, with the rest of the walk as a recursive call. *)
Lemma parse_loop_step (fuel : nat) (data : bytes) (pos : Z) :
  parse_loop (S fuel) data pos [] =
    if pos <? len data - 8 then
      size <- unpack_be32 (py_slice data pos (pos + 4)) ;;
      if (size <? 8) || (len data - pos <? size) then Done []
      else map_result
             (cons (mk_atom (py_slice data (pos + 4) (pos + 8)) pos size))
             (parse_loop fuel data (pos + size) [])
    else Done [].
Proof.
  cbn [parse_loop].
  destruct (Z.ltb_spec pos (len data - 8)) as [Hlt|]; [|reflexivity].
  destruct (Z.ltb_spec (len data) (pos + 8)); [lia|].
  destruct (unpack_be32 _) as [size| |]; cbn [bind]; try reflexivity.
  destruct ((size <? 8) || (len data - pos <? size)); [reflexivity|].
  cbn [app]; rewrite parse_loop_acc; destruct (parse_loop fuel _ _ []); reflexivity.
Qed.

(** The budget is never exhausted once it exceeds the bytes left. *)
Lemma parse_loop_fuel_enough (fuel : nat) (data : bytes) :
  forall pos, (Z.to_nat (len data - pos) < fuel)%nat ->
    parse_loop fuel data pos [] <> OutOfFuel.
Proof.
  induction fuel as [|fuel IH]; intros pos Hf; [lia|].
  rewrite parse_loop_step.
  destruct (Z.ltb_spec pos (len data - 8)) as [Hlt|]; [|discriminate].
  destruct (unpack_be32 _) as [size| |] eqn:Hsize; cbn [bind];
    [|discriminate|now apply unpack_be32_fuel_free in Hsize].
  destruct (Z.ltb_spec size 8); cbn [orb]; [discriminate|].
  destruct (Z.ltb_spec (len data - pos) size); [discriminate|].
  assert (Hrec : parse_loop fuel data (pos + size) [] <> OutOfFuel)
    by (apply IH; lia).
  destruct (parse_loop fuel data (pos + size) []); cbn;
    [discriminate | discriminate | exact Hrec].
Qed.

(** More budget than needed changes nothing. *)
Lemma parse_loop_fuel_mono (fuel : nat) (data : bytes) :
  forall pos fuel', (fuel <= fuel')%nat ->
    parse_loop fuel data pos [] <> OutOfFuel ->
    parse_loop fuel' data pos [] = parse_loop fuel data pos [].
Proof.
  induction fuel as [|fuel IH]; intros pos fuel' Hle Hne; [now cbn in Hne|].
  destruct fuel' as [|fuel']; [lia|].
  rewrite !parse_loop_step in *.
  destruct (pos <? len data - 8); [|reflexivity].
  destruct (unpack_be32 _) as [size| |]; cbn [bind] in *; try reflexivity.
  destruct ((size <? 8) || (len data - pos <? size)); [reflexivity|].
  rewrite (IH (pos + size) fuel'); [reflexivity|lia|].
  intros E; rewrite E in Hne; now apply Hne.
Qed.

(** The walk as an equation on [parse_mp4_atoms] started further on. *)
Lemma parse_mp4_atoms_step (data : bytes) (pos : Z) :
  parse_mp4_atoms data pos =
    if pos <? len data - 8 then
      size <- unpack_be32 (py_slice data pos (pos + 4)) ;;
      if (size <? 8) || (len data - pos <? size) then Done []
      else map_result
             (cons (mk_atom (py_slice data (pos + 4) (pos + 8)) pos size))
             (parse_mp4_atoms data (pos + size))
    else Done [].
Proof.
  unfold parse_mp4_atoms at 1, parse_fuel; rewrite parse_loop_step.
  destruct (Z.ltb_spec pos (len data - 8)) as [Hlt|]; [|reflexivity].
  destruct (unpack_be32 _) as [size| |]; cbn [bind]; try reflexivity.
  destruct (Z.ltb_spec size 8); cbn [orb]; [reflexivity|].
  destruct (Z.ltb_spec (len data - pos) size); [reflexivity|].
  f_equal; unfold parse_mp4_atoms, parse_fuel.
  apply parse_loop_fuel_mono; [lia|].
  apply parse_loop_fuel_enough; lia.
Qed.

Lemma parse_mp4_atoms_terminates (data : bytes) (pos : Z) :
  parse_mp4_atoms data pos <> OutOfFuel.
Proof. apply parse_loop_fuel_enough; unfold parse_fuel; lia. Qed.

(** ** Invariants of the returned records *)

Lemma parse_loop_invariant (fuel : nat) (data : bytes) :
  forall pos atoms,
    parse_loop fuel data pos [] = Done atoms ->
    Forall (fun a => record_ok data a /\ header_at data a) atoms
    /\ chained pos atoms.
Proof.
  induction fuel as [|fuel IH]; intros pos atoms; [discriminate|].
  rewrite parse_loop_step.
  destruct (Z.ltb_spec pos (len data - 8)) as [Hlt|];
    [|intros [= <-]; split; constructor].
  destruct (unpack_be32 _) as [size| |] eqn:Hsize; cbn [bind]; try discriminate.
  destruct (Z.ltb_spec size 8); cbn [orb]; [intros [= <-]; split; constructor|].
  destruct (Z.ltb_spec (len data - pos) size);
    [intros [= <-]; split; constructor|].
  destruct (parse_loop fuel data (pos + size) []) as [rest| |] eqn:Hrest;
    cbn [map_result]; try discriminate.
  intros [= <-]; destruct (IH _ _ Hrest) as [Hall Hch]; split.
  - constructor; [|exact Hall].
    unfold record_ok, header_at; cbn; repeat split; try assumption; lia.
  - cbn; split; [reflexivity | exact Hch].
Qed.

Lemma chained_consecutive (atoms : list atom) :
  forall p, chained p atoms -> consecutive atoms.
Proof.
  induction atoms as [|a rest IH]; intros p Hch i x y Hx Hy.
  - destruct i; discriminate.
  - destruct Hch as [_ Hch]; destruct i as [|i]; cbn in Hx, Hy.
    + injection Hx as <-. destruct rest as [|b rest]; [discriminate|].
      injection Hy as <-. now destruct Hch as [-> _].
    + exact (IH _ Hch i x y Hx Hy).
Qed.

Lemma py_last_in {A : Type} (l : list A) (a : A) : py_last l = Done a -> In a l.
Proof.
  induction l as [|x [|y l] IH]; cbn [py_last]; [discriminate| |].
  - intros [= ->]; now left.
  - intros H; right; exact (IH H).
Qed.

Lemma py_last_defined {A : Type} (l : list A) :
  l <> [] -> exists a, py_last l = Done a.
Proof.
  induction l as [|x [|y l] IH]; intros Hne; [congruence| |].
  - exists x; reflexivity.
  - destruct IH as [a Ha]; [discriminate|]; exists a; exact Ha.
Qed.

(** Every record ends at or after the start of a chain, and a later record
    ends later. *)
Lemma chained_last_end (data : bytes) (atoms : list atom) :
  forall p a, chained p atoms -> Forall (record_ok data) atoms ->
    py_last atoms = Done a ->
    forall b, In b atoms -> atom_pos b + atom_size b <= atom_pos a + atom_size a.
Proof.
  induction atoms as [|x rest IH]; intros p a Hch Hok Hlast b Hin; [contradiction|].
  destruct Hch as [Hx Hch]; inversion Hok as [|? ? Hokx Hokr]; subst.
  destruct rest as [|y rest].
  - cbn in Hlast; injection Hlast as <-.
    destruct Hin as [<-|[]]; lia.
  - change (py_last (y :: rest) = Done a) in Hlast.
    destruct Hin as [<-|Hin]; [|exact (IH _ _ Hch Hokr Hlast b Hin)].
    pose proof (IH _ _ Hch Hokr Hlast y (or_introl eq_refl)) as Hy.
    destruct Hch as [Hy0 _]; inversion Hokr as [|? ? [Hy8 _] _]; subst; lia.
Qed.

(** C6: every record returned by [parse_mp4_atoms] has [length >= 8] and
    [offset + length <= len(B)]; consecutive records are adjacent
    ([record[i+1].offset = record[i].offset + record[i].length]); and the
    end of the final record does not exceed [len(B)]. *)
Theorem parse_records_invariant (data : bytes) (s : Z) (atoms : list atom) :
  parse_mp4_atoms data s = Done atoms ->
  Forall (record_ok data) atoms
  /\ consecutive atoms
  /\ (forall a, py_last atoms = Done a -> atom_pos a + atom_size a <= len data).
Proof.
  intros Hp; apply parse_loop_invariant in Hp as [Hall Hch].
  assert (Hok : Forall (record_ok data) atoms)
    by (eapply Forall_impl; [|exact Hall]; now intros a [H _]).
  repeat split; [exact Hok | exact (chained_consecutive _ _ Hch) |].
  intros a Ha; apply py_last_in in Ha.
  rewrite Forall_forall in Hok; now apply Hok.
Qed.

Lemma parse_records_invariant_witness :
  parse_mp4_atoms three_records 0 = Done three_records_atoms
  /\ Forall (record_ok three_records) three_records_atoms
  /\ consecutive three_records_atoms
  /\ (forall a, py_last three_records_atoms = Done a ->
        atom_pos a + atom_size a <= len three_records).
Proof.
  split; [vm_compute; reflexivity|].
  apply (parse_records_invariant three_records 0 three_records_atoms).
  vm_compute; reflexivity.
Defined.

(** ** Totality of the walk *)

Lemma header_slice_defined (data : bytes) (pos : Z) :
  0 <= pos -> pos < len data - 8 ->
  exists v, unpack_be32 (py_slice data pos (pos + 4)) = Done v.
Proof.
  intros H0 Hlt; apply unpack_be32_defined.
  pose proof (len_py_slice data pos (pos + 4)) as Hlen.
  unfold len in Hlen at 2; lia.
Qed.

(** From a non-negative position the walk raises nothing. *)
Lemma parse_loop_no_raise (fuel : nat) (data : bytes) :
  forall pos, 0 <= pos -> parse_loop fuel data pos [] <> Raised.
Proof.
  induction fuel as [|fuel IH]; intros pos H0; [discriminate|].
  rewrite parse_loop_step.
  destruct (Z.ltb_spec pos (len data - 8)) as [Hlt|]; [|discriminate].
  destruct (header_slice_defined data pos H0 Hlt) as [size ->]; cbn [bind].
  destruct (Z.ltb_spec size 8); cbn [orb]; [discriminate|].
  destruct (Z.ltb_spec (len data - pos) size); [discriminate|].
  assert (Hrec : parse_loop fuel data (pos + size) [] <> Raised)
    by (apply IH; lia).
  destruct (parse_loop fuel data (pos + size) []); cbn;
    [discriminate | exact Hrec | discriminate].
Qed.

(** C7: [parse_mp4_atoms] is total.  The iteration budget of the walk is
    never exhausted, and a larger budget gives the same answer, because
    every appended record has [length >= 8], starts where the previous one
    ended and ends within [len(B)]; for an offset [s >= 0] no exception is
    raised and a list is returned; and the list is empty whenever
    [len(B) - s < 8]. *)
Theorem parse_total (data : bytes) (s : Z) :
  parse_mp4_atoms data s <> OutOfFuel
  /\ (forall fuel, (parse_fuel data s <= fuel)%nat ->
        parse_loop fuel data s [] = parse_mp4_atoms data s)
  /\ (forall atoms, parse_mp4_atoms data s = Done atoms ->
        chained s atoms /\ Forall (record_ok data) atoms)
  /\ (0 <= s -> exists atoms, parse_mp4_atoms data s = Done atoms)
  /\ (len data - s < 8 -> parse_mp4_atoms data s = Done []).
Proof.
  split; [apply parse_mp4_atoms_terminates|].
  split.
  { intros fuel Hf; apply parse_loop_fuel_mono;
      [exact Hf | apply parse_mp4_atoms_terminates]. }
  split.
  { intros atoms Hp; apply parse_loop_invariant in Hp as [Hall Hch].
    split; [exact Hch|].
    eapply Forall_impl; [|exact Hall]; now intros a [H _]. }
  split.
  - intros H0.
    pose proof (parse_mp4_atoms_terminates data s) as Hfuel.
    pose proof (parse_loop_no_raise (parse_fuel data s) data s H0) as Hraise.
    fold (parse_mp4_atoms data s) in Hraise.
    destruct (parse_mp4_atoms data s) as [atoms| |]; [|congruence|congruence].
    exists atoms; reflexivity.
  - intros Hshort; rewrite parse_mp4_atoms_step.
    destruct (Z.ltb_spec s (len data - 8)); [lia | reflexivity].
Qed.

Lemma parse_total_witness :
  (0 <= 0 /\ exists atoms, parse_mp4_atoms three_records 0 = Done atoms)
  /\ (len ftyp - 0 < 8 /\ parse_mp4_atoms ftyp 0 = Done []).
Proof.
  split.
  - split; [lia|].
    apply (proj1 (proj2 (proj2 (proj2 (parse_total three_records 0))))); lia.
  - split; [vm_compute; reflexivity|].
    apply (proj2 (proj2 (proj2 (proj2 (parse_total ftyp 0))))).
    vm_compute; reflexivity.
Defined.

(** Outside the domain of offsets: a negative start position can make
    [struct.unpack] receive a short slice. *)
Example parse_negative_start :
  parse_mp4_atoms three_records (-2) = Raised.
Proof. vm_compute; reflexivity. Qed.

(** ** The loop condition at the end of the buffer *)

(** Strictly more than 8 bytes left and a size within bounds: the record is
    appended and the walk goes on at [pos + size]. *)
Lemma parse_appends (data : bytes) (pos size : Z) :
  0 <= pos -> pos < len data - 8 ->
  unpack_be32 (py_slice data pos (pos + 4)) = Done size ->
  8 <= size <= len data - pos ->
  parse_mp4_atoms data pos
  = map_result (cons (mk_atom (py_slice data (pos + 4) (pos + 8)) pos size))
      (parse_mp4_atoms data (pos + size)).
Proof.
  intros H0 Hlt Hsize Hle; rewrite parse_mp4_atoms_step, Hsize; cbn [bind].
  destruct (Z.ltb_spec pos (len data - 8)); [|lia].
  destruct (Z.ltb_spec size 8); [lia|].
  destruct (Z.ltb_spec (len data - pos) size); [lia|reflexivity].
Qed.

(** C3: a buffer that is exactly one well-formed record with an empty body
    ([size = 8], tag [moov]).  At cursor 0 eight bytes remain and
    [8 <= size <= len(B) - cursor], yet the walk returns no record: the loop
    condition [pos < len(data) - 8] is already false. *)
Theorem parse_skips_record_in_last_8_bytes :
  len (record moov []) - 0 = 8
  /\ unpack_be32 (py_slice (record moov []) 0 4) = Done 8
  /\ 8 <= 8 <= len (record moov []) - 0
  /\ parse_mp4_atoms (record moov []) 0 = Done [].
Proof. vm_compute; repeat split; discriminate. Qed.

(** The same at the end of a longer walk: the final [mdat] header is left
    out. *)
Example parse_skips_trailing_header :
  parse_mp4_atoms (record ftyp [] ++ record moov [] ++ record mdat []) 0
  = Done [mk_atom ftyp 0 8; mk_atom moov 8 8].
Proof. vm_compute; reflexivity. Qed.

(** ** Structural extraction *)

Lemma bytes_eqb_neq (x y : bytes) : bytes_eqb x y = false <-> x <> y.
Proof.
  split.
  - intros H E; apply bytes_eqb_eq in E; congruence.
  - intros H; destruct (bytes_eqb x y) eqn:E; [|reflexivity].
    apply bytes_eqb_eq in E; contradiction.
Qed.

Lemma mark_step_moov (atoms : list atom) :
  forall init,
    fst (fold_left mark_step atoms init) = None
    <-> fst init = None /\ forall a, In a atoms -> atom_type a <> moov.
Proof.
  induction atoms as [|x rest IH]; intros init; cbn [fold_left].
  - split; [intros H; split; [exact H | intros a []] | now intros [H _]].
  - rewrite IH; unfold mark_step.
    destruct (bytes_eqb (atom_type x) moov) eqn:Hx; cbn [fst].
    + apply bytes_eqb_eq in Hx; split; [intros [[=] _]|].
      intros [_ H]; exfalso; exact (H x (or_introl eq_refl) Hx).
    + apply bytes_eqb_neq in Hx.
      assert (Hfst : fst (if bytes_eqb (atom_type x) mdat
                          then (fst init, Some (atom_pos x)) else init)
                     = fst init) by (destruct (bytes_eqb _ mdat); reflexivity).
      rewrite Hfst; split; intros [H0 H]; (split; [exact H0|]).
      * intros a [<-|Ha]; [exact Hx | now apply H].
      * intros a Ha; apply H; now right.
Qed.

Lemma mark_atoms_moov (atoms : list atom) :
  fst (mark_atoms atoms) = None <-> ~ has_moov atoms.
Proof.
  unfold mark_atoms, has_moov; rewrite mark_step_moov; cbn [fst]; split.
  - intros [_ Hno] [a [Ha Hty]]; exact (Hno a Ha Hty).
  - intros Hno; split; [reflexivity|]; intros a Ha Hty; apply Hno; now exists a.
Qed.

Lemma has_moov_dec (atoms : list atom) : {has_moov atoms} + {~ has_moov atoms}.
Proof.
  destruct (fst (mark_atoms atoms)) eqn:E.
  - left; destruct (mark_atoms_moov atoms) as [_ H].
    assert (Hnn : ~ ~ has_moov atoms) by (intros Hn; apply H in Hn; congruence).
    unfold has_moov in *.
    induction atoms as [|x rest IH]; [exfalso; apply Hnn; intros [a [[] _]]|].
    destruct (bytes_eqb (atom_type x) moov) eqn:Hx.
    + exists x; split; [now left | now apply bytes_eqb_eq].
    + destruct (Exists_dec (fun a => atom_type a = moov) rest) as [Hex|Hnex].
      * intros a; destruct (bytes_eqb (atom_type a) moov) eqn:Ha;
          [left; now apply bytes_eqb_eq
          |right; intros Eq; apply bytes_eqb_eq in Eq; congruence].
      * apply Exists_exists in Hex as [a [Ha Hty]]; exists a; split;
          [now right | exact Hty].
      * exfalso; apply Hnn; intros [a [[<-|Ha] Hty]].
        -- apply bytes_eqb_eq in Hty; congruence.
        -- apply Hnex, Exists_exists; now exists a.
  - right; now apply mark_atoms_moov.
Qed.

(** What [extract_mp4_video] returns, by cases on the parsed records. *)
Lemma extract_mp4_video_cases (data : bytes) (s : Z) (atoms : list atom)
  (last_atom : atom) :
  parse_mp4_atoms data s = Done atoms ->
  py_last atoms = Done last_atom ->
  (has_moov atoms /\ startswith ftyp (structural_slice data s last_atom) = true
   /\ extract_mp4_video data s = Done (Some (structural_slice data s last_atom)))
  \/ ((~ has_moov atoms
       \/ startswith ftyp (structural_slice data s last_atom) = false)
      /\ extract_mp4_video data s = Done (window_branch data s)).
Proof.
  intros Hp Hlast; unfold extract_mp4_video, extract_mp4_video_body.
  rewrite Hp; cbn [bind].
  destruct atoms as [|x rest]; [discriminate|].
  destruct (fst (mark_atoms (x :: rest))) as [moov_pos|] eqn:Hmark.
  - assert (Hm : has_moov (x :: rest)).
    { destruct (has_moov_dec (x :: rest)) as [H|H]; [exact H|].
      apply mark_atoms_moov in H; congruence. }
    unfold moov_branch; rewrite Hlast; cbn [bind].
    fold (structural_slice data s last_atom).
    destruct (startswith ftyp (structural_slice data s last_atom)); cbn [bind].
    + left; repeat split; assumption.
    + right; split; [now right | reflexivity].
  - right; split; [left; now apply mark_atoms_moov | reflexivity].
Qed.

Lemma extract_mp4_video_empty (data : bytes) (s : Z) :
  parse_mp4_atoms data s = Done [] -> extract_mp4_video data s = Done None.
Proof.
  intros Hp; unfold extract_mp4_video, extract_mp4_video_body.
  now rewrite Hp.
Qed.

(** [extract_mp4_video] always returns: a slice or [None]. *)
Lemma extract_mp4_video_total (data : bytes) (s : Z) :
  exists v, extract_mp4_video data s = Done v.
Proof.
  destruct (parse_mp4_atoms data s) as [atoms| |] eqn:Hp.
  - destruct atoms as [|x rest]; [eexists; now apply extract_mp4_video_empty|].
    destruct (py_last_defined (x :: rest)) as [a Ha]; [discriminate|].
    destruct (extract_mp4_video_cases _ _ _ _ Hp Ha) as [[_ [_ H]]|[_ H]];
      eexists; exact H.
  - unfold extract_mp4_video, extract_mp4_video_body; rewrite Hp; cbn.
    eexists; reflexivity.
  - now apply parse_mp4_atoms_terminates in Hp.
Qed.

(** ** The header check of the structural path *)

Section SizeFieldReadAsTag.

Variable tail : bytes.
Hypothesis tail_len : len tail = 1718909288.

Lemma ftyp_sized_len : len (tagged_as_size tail) = 1718909296.
Proof. unfold tagged_as_size; rewrite !len_app, tail_len; reflexivity. Qed.

Lemma ftyp_sized_parse :
  parse_mp4_atoms (tagged_as_size tail) 0 = Done [mk_atom moov 0 1718909296].
Proof.
  pose proof ftyp_sized_len as Hlen.
  rewrite parse_mp4_atoms_step, Hlen; cbn [Z.sub Z.ltb Z.compare Z.opp Z.add Z.pos_sub
    Pos.compare Pos.compare_cont].
  rewrite (py_slice_inside (tagged_as_size tail) 0 4), (py_slice_inside (tagged_as_size tail) 4 8) by lia.
  change (unpack_be32 (firstn (Z.to_nat (4 - 0)) (skipn (Z.to_nat 0) (tagged_as_size tail))))
    with (unpack_be32 ftyp).
  change (firstn (Z.to_nat (8 - 4)) (skipn (Z.to_nat 4) (tagged_as_size tail))) with moov.
  change (unpack_be32 ftyp) with (@Done Z 1718909296); cbn [bind].
  change ((1718909296 <? 8) || (1718909296 - 0 <? 1718909296)) with false.
  cbv iota; rewrite parse_mp4_atoms_step, Hlen.
  reflexivity.
Qed.

Lemma ftyp_sized_accepted :
  moov_branch (tagged_as_size tail) 0 [mk_atom moov 0 1718909296] = Done (Some (tagged_as_size tail))
  /\ extract_mp4_video (tagged_as_size tail) 0 = Done (Some (tagged_as_size tail))
  /\ py_slice (tagged_as_size tail) 4 8 = moov.
Proof.
  pose proof ftyp_sized_len as Hlen.
  assert (Hslice : structural_slice (tagged_as_size tail) 0 (mk_atom moov 0 1718909296) = (tagged_as_size tail)).
  { unfold structural_slice; cbn [atom_pos atom_size].
    change (0 + 1718909296) with 1718909296.
    rewrite <- Hlen; apply py_slice_all. }
  assert (Hstart : startswith ftyp (tagged_as_size tail) = true) by reflexivity.
  repeat split.
  - unfold moov_branch; cbn [py_last bind].
    fold (structural_slice (tagged_as_size tail) 0 (mk_atom moov 0 1718909296)).
    now rewrite Hslice, Hstart.
  - destruct (extract_mp4_video_cases (tagged_as_size tail) 0 _ (mk_atom moov 0 1718909296)
                ftyp_sized_parse eq_refl) as [[_ [_ H]]|[[Hno|Hno] _]].
    + now rewrite H, Hslice.
    + exfalso; apply Hno; eexists; split; [left; reflexivity | reflexivity].
    + rewrite Hslice in Hno; congruence.
  - rewrite (py_slice_inside (tagged_as_size tail) 4 8) by lia; reflexivity.
Qed.

End SizeFieldReadAsTag.

Lemma huge_tail_len : len huge_tail = 1718909288.
Proof.
  unfold len, huge_tail; rewrite repeat_length, Z2Nat.id; [reflexivity | lia].
Qed.

(** C1: the slice is validated with [video_data.startswith(b'ftyp')], i.e.
    on bytes [0:4) of the slice, where the size field lies, not on bytes
    [4:8).  On the buffer [huge] a [moov] record is found, the slice is the
    whole buffer and it is accepted, although its bytes [4:8) are [moov],
    not [ftyp]. *)
Theorem structural_check_reads_size_field :
  parse_mp4_atoms huge 0 = Done [mk_atom moov 0 1718909296]
  /\ has_moov [mk_atom moov 0 1718909296]
  /\ moov_branch huge 0 [mk_atom moov 0 1718909296] = Done (Some huge)
  /\ extract_mp4_video huge 0 = Done (Some huge)
  /\ py_slice huge 4 8 = moov
  /\ moov <> ftyp.
Proof.
  destruct (ftyp_sized_accepted huge_tail huge_tail_len) as [Hm [He Hs]].
  refine (conj (ftyp_sized_parse huge_tail huge_tail_len)
            (conj _ (conj Hm (conj He (conj Hs _))))).
  - exists (mk_atom moov 0 1718909296); split; [left|]; reflexivity.
  - discriminate.
Qed.

(** What the check does accept: a slice whose first four bytes are the
    tag. *)
Lemma moov_branch_accepts (data : bytes) (s : Z) (atoms : list atom) (v : bytes) :
  moov_branch data s atoms = Done (Some v) -> exists rest, v = ftyp ++ rest.
Proof.
  unfold moov_branch; destruct (py_last atoms) as [a| |]; cbn [bind];
    try discriminate.
  destruct (startswith ftyp _) eqn:E; intros [= <-].
  now apply startswith_app.
Qed.

(** C2: the round trip on a header record (size 16, tag [ftyp]), a [moov]
    record and an [mdat] record.  The three records are parsed, the [moov]
    record is found, the slice up to the end of the last record is the whole
    buffer and has the tag [ftyp] at bytes [4:8); still [None] is
    returned. *)
Theorem roundtrip_rejected :
  parse_mp4_atoms three_records 0 = Done three_records_atoms
  /\ has_moov three_records_atoms
  /\ structural_slice three_records 0 (mk_atom mdat 24 12) = three_records
  /\ py_slice three_records 4 8 = ftyp
  /\ extract_mp4_video three_records 0 = Done None.
Proof.
  split; [vm_compute; reflexivity|].
  split; [exists (mk_atom moov 16 8); split; [right; left|]; reflexivity|].
  repeat split; vm_compute; reflexivity.
Qed.

(** The same buffer with the size field of the header set to the length of
    the whole buffer: a single record is parsed and [None] is returned. *)
Example roundtrip_rejected_whole_length :
  extract_mp4_video
    (be32 36 ++ ftyp ++ zeros 8 ++ record moov [] ++ record mdat (zeros 4)) 0
  = Done None.
Proof. vm_compute; reflexivity. Qed.

(** ** The windowed fallback *)

Lemma window_branch_window (data : bytes) (s : Z) :
  window_branch data s =
    if 1000 <? len data - s then
      if py_in moov (window data s) || py_in mdat (window data s)
      then Some (window data s) else None
    else None.
Proof. reflexivity. Qed.

(** C4 (as amended): when the parsed sequence is non-empty and holds no
    [moov] record, strictly more than 1000 bytes remain from the start
    offset, and the window of at most 100 MiB contains [moov] or [mdat]
    anywhere, [extract_mp4_video] returns exactly that window. *)
Theorem window_fallback_accepts (data : bytes) (s : Z) (atoms : list atom) :
  parse_mp4_atoms data s = Done atoms ->
  atoms <> [] ->
  ~ has_moov atoms ->
  1000 < len data - s ->
  py_in moov (window data s) || py_in mdat (window data s) = true ->
  extract_mp4_video data s = Done (Some (window data s)).
Proof.
  intros Hp Hne Hno Hrem Htag.
  destruct (py_last_defined atoms Hne) as [a Ha].
  destruct (extract_mp4_video_cases data s atoms a Hp Ha)
    as [[Hm _]|[_ ->]]; [contradiction|].
  rewrite window_branch_window, Htag.
  destruct (Z.ltb_spec 1000 (len data - s)); [reflexivity | lia].
Qed.

Lemma window_fallback_accepts_witness :
  extract_mp4_video (mdat_1000 ++ [x00]) 0
  = Done (Some (window (mdat_1000 ++ [x00]) 0)).
Proof.
  apply (window_fallback_accepts (mdat_1000 ++ [x00]) 0
           [mk_atom ftyp 0 8; mk_atom mdat 8 8]).
  - vm_compute; reflexivity.
  - discriminate.
  - intros [a [[<-|[<-|[]]] Hty]]; discriminate.
  - vm_compute; reflexivity.
  - vm_compute; reflexivity.
Defined.

(** C4, with "at least 1000 bytes": with exactly 1000 bytes remaining the
    window is not tried, and the statement fails on [mdat_1000]. *)
Lemma window_fallback_rejects_exactly_1000 :
  ~ (forall (data : bytes) (s : Z) (atoms : list atom),
        parse_mp4_atoms data s = Done atoms ->
        atoms <> [] ->
        ~ has_moov atoms ->
        1000 <= len data - s ->
        py_in moov (window data s) || py_in mdat (window data s) = true ->
        extract_mp4_video data s = Done (Some (window data s))).
Proof.
  intros H.
  specialize (H mdat_1000 0 [mk_atom ftyp 0 8; mk_atom mdat 8 8]).
  assert (E : extract_mp4_video mdat_1000 0 = Done (Some (window mdat_1000 0))).
  { apply H.
    - vm_compute; reflexivity.
    - discriminate.
    - intros [a [[<-|[<-|[]]] Hty]]; discriminate.
    - vm_compute; discriminate.
    - vm_compute; reflexivity. }
  vm_compute in E; discriminate.
Qed.

(** ** When the window is tried *)

(** C5 (as amended): when the walk returns no record, [None] is returned
    and the window is not tried.  For a non-empty record sequence the
    window is tried whenever the structural path returns nothing, that is
    when no [moov] record was found and also when one was found but the
    slice up to the end of the last record fails the header check; when a
    [moov] record is found and the slice passes the check, that slice is
    returned. *)
Theorem window_tried_after_structural_path (data : bytes) (s : Z)
  (atoms : list atom) :
  parse_mp4_atoms data s = Done atoms ->
  (atoms = [] -> extract_mp4_video data s = Done None)
  /\ (forall last_atom,
        py_last atoms = Done last_atom ->
        (~ has_moov atoms ->
         extract_mp4_video data s = Done (window_branch data s))
        /\ (has_moov atoms ->
            startswith ftyp (structural_slice data s last_atom) = false ->
            moov_branch data s atoms = Done None
            /\ extract_mp4_video data s = Done (window_branch data s))
        /\ (has_moov atoms ->
            startswith ftyp (structural_slice data s last_atom) = true ->
            extract_mp4_video data s
            = Done (Some (structural_slice data s last_atom)))).
Proof.
  intros Hp; split.
  { intros ->; now apply extract_mp4_video_empty. }
  intros last_atom Hlast.
  assert (Hbranch : moov_branch data s atoms =
                    if startswith ftyp (structural_slice data s last_atom)
                    then Done (Some (structural_slice data s last_atom))
                    else Done None)
    by (unfold moov_branch; rewrite Hlast; reflexivity).
  destruct (extract_mp4_video_cases data s atoms last_atom Hp Hlast)
    as [[Hm [Hs He]]|[[Hno|Hs] He]].
  - repeat split; intros; try contradiction; congruence.
  - repeat split; intros; try contradiction; exact He.
  - repeat split; intros; try congruence.
    rewrite Hbranch, Hs; reflexivity.
Qed.

Lemma window_tried_after_structural_path_witness :
  (parse_mp4_atoms ftyp 0 = Done [] /\ extract_mp4_video ftyp 0 = Done None)
  /\ has_moov [mk_atom ftyp 0 8; mk_atom moov 8 8]
  /\ moov_branch moov_then_filler 0 [mk_atom ftyp 0 8; mk_atom moov 8 8]
     = Done None
  /\ extract_mp4_video moov_then_filler 0
     = Done (window_branch moov_then_filler 0).
Proof.
  assert (Hm : has_moov [mk_atom ftyp 0 8; mk_atom moov 8 8])
    by (exists (mk_atom moov 8 8); split; [right; left|]; reflexivity).
  assert (He : parse_mp4_atoms ftyp 0 = Done []) by (vm_compute; reflexivity).
  split.
  { split; [exact He|].
    exact (proj1 (window_tried_after_structural_path ftyp 0 [] He) eq_refl). }
  split; [exact Hm|].
  apply (proj1 (proj2 (proj2 (window_tried_after_structural_path
                                moov_then_filler 0
                                [mk_atom ftyp 0 8; mk_atom moov 8 8]
                                ltac:(vm_compute; reflexivity))
                         (mk_atom moov 8 8) eq_refl)));
    [exact Hm | vm_compute; reflexivity].
Defined.

(** No record is parsed (size field 0) although the window would qualify:
    [None] is returned. *)
Example window_not_tried_without_records :
  parse_mp4_atoms (be32 0 ++ ftyp ++ mdat ++ zeros 1000) 0 = Done []
  /\ py_in mdat (window (be32 0 ++ ftyp ++ mdat ++ zeros 1000) 0) = true
  /\ extract_mp4_video (be32 0 ++ ftyp ++ mdat ++ zeros 1000) 0 = Done None.
Proof. vm_compute; repeat split. Qed.

(** C5, as first stated: a [moov] record is found in [moov_then_filler], the
    structural path alone gives nothing, and yet the 1016-byte window is
    returned. *)
Lemma window_tried_with_moov_present :
  ~ (forall (data : bytes) (s : Z) (atoms : list atom),
        parse_mp4_atoms data s = Done atoms ->
        has_moov atoms ->
        extract_mp4_video data s = moov_branch data s atoms).
Proof.
  intros H.
  specialize (H moov_then_filler 0 [mk_atom ftyp 0 8; mk_atom moov 8 8]).
  assert (E : extract_mp4_video moov_then_filler 0
              = moov_branch moov_then_filler 0
                  [mk_atom ftyp 0 8; mk_atom moov 8 8]).
  { apply H; [vm_compute; reflexivity|].
    exists (mk_atom moov 8 8); split; [right; left|]; reflexivity. }
  vm_compute in E; discriminate.
Qed.

(** ** Searching for the signature *)

Lemma startswith_nil (sub : bytes) : sub <> [] -> startswith sub [] = false.
Proof. destruct sub; [congruence | reflexivity]. Qed.

Lemma find_list_spec (sub : bytes) (Hsub : sub <> []) (l : bytes) :
  forall i,
    (find_list sub l i = -1
     /\ forall k, startswith sub (skipn k l) = false)
    \/ (exists k, find_list sub l i = i + Z.of_nat k
                 /\ (k < length l)%nat
                 /\ startswith sub (skipn k l) = true
                 /\ forall j, (j < k)%nat -> startswith sub (skipn j l) = false).
Proof.
  induction l as [|a t IH]; intros i.
  - left; split; [destruct sub; [congruence | reflexivity]|].
    intros k; rewrite skipn_nil; now apply startswith_nil.
  - cbn [find_list]; destruct (startswith sub (a :: t)) eqn:Hhead.
    + right; exists 0%nat; cbn [skipn length].
      repeat split; [lia | lia | exact Hhead | intros j Hj; lia].
    + destruct (IH (i + 1)) as [[Hnone Hall]|[k [Hk [Hlt [Hat Hbefore]]]]].
      * left; split; [exact Hnone|].
        intros [|k]; [exact Hhead | apply Hall].
      * right; exists (S k); cbn [skipn length].
        repeat split; [lia | lia | exact Hat |].
        intros [|j] Hj; [exact Hhead | apply Hbefore; lia].
Qed.

Lemma occurs_at_fits (sub data : bytes) (p : Z) :
  sub <> [] -> occurs_at sub data p -> p + len sub <= len data.
Proof.
  intros Hsub [H0 Hs]; apply startswith_app in Hs as [rest Hrest].
  assert (Hl : len (skipn (Z.to_nat p) data) = len sub + len rest)
    by (rewrite Hrest; apply len_app).
  rewrite len_skipn in Hl.
  pose proof (len_nonneg rest); pose proof (len_nonneg data).
  assert (0 < len sub)
    by (destruct sub; [congruence | unfold len; cbn [length]; lia]).
  lia.
Qed.

(** [data.find(sub, start)] is the first occurrence at or after [start]. *)
Lemma py_find_spec (sub data : bytes) (start : Z) :
  sub <> [] -> 0 <= start <= len data ->
  (py_find sub data start = -1
   /\ forall q, start <= q -> ~ occurs_at sub data q)
  \/ (start <= py_find sub data start
      /\ occurs_at sub data (py_find sub data start)
      /\ forall q, start <= q < py_find sub data start -> ~ occurs_at sub data q).
Proof.
  intros Hsub Hstart; unfold py_find; cbv zeta.
  rewrite norm_index_inside by assumption.
  destruct (Z.ltb_spec (len data) start); [lia|].
  assert (Hskip : forall k,
             skipn k (skipn (Z.to_nat start) data)
             = skipn (Z.to_nat (start + Z.of_nat k)) data).
  { intros k; rewrite skipn_skipn; f_equal; lia. }
  destruct (find_list_spec sub Hsub (skipn (Z.to_nat start) data) start)
    as [[Hnone Hall]|[k [Hk [Hlt [Hat Hbefore]]]]].
  - left; split; [exact Hnone|].
    intros q Hq [_ Hocc].
    specialize (Hall (Z.to_nat (q - start))); rewrite Hskip in Hall.
    replace (start + Z.of_nat (Z.to_nat (q - start))) with q in Hall by lia.
    congruence.
  - right; rewrite Hk; split; [lia|]; split.
    + split; [lia|]; now rewrite <- Hskip.
    + intros q Hq [_ Hocc].
      specialize (Hbefore (Z.to_nat (q - start)) ltac:(lia)).
      rewrite Hskip in Hbefore.
      replace (start + Z.of_nat (Z.to_nat (q - start))) with q in Hbefore by lia.
      congruence.
Qed.

(** Two occurrences of [ftyp] are at least four bytes apart. *)
Lemma ftyp_no_overlap (data : bytes) (p q : Z) :
  occurs_at ftyp data p -> p < q < p + 4 -> ~ occurs_at ftyp data q.
Proof.
  intros [Hp Hs] Hq [_ Hs'].
  apply startswith_app in Hs as [rest Hrest].
  replace (Z.to_nat q) with (Z.to_nat (q - p) + Z.to_nat p)%nat in Hs' by lia.
  rewrite <- skipn_skipn, Hrest in Hs'.
  assert (Hk : Z.to_nat (q - p) = 1%nat \/ Z.to_nat (q - p) = 2%nat
               \/ Z.to_nat (q - p) = 3%nat) by lia.
  destruct Hk as [Hk | [Hk | Hk]]; rewrite Hk in Hs'; cbn in Hs'; discriminate.
Qed.

(** ** Length of an extracted slice *)

Lemma prefix_of_slice (data : bytes) (s e : Z) :
  0 <= s -> s + 4 <= e -> e <= len data ->
  startswith ftyp (py_slice data s e) = true ->
  py_slice data s (s + 4) = ftyp.
Proof.
  intros H0 He Hlen Hs.
  rewrite py_slice_inside in Hs by lia.
  apply startswith_app in Hs as [rest Hrest].
  rewrite py_slice_inside by lia.
  replace (Z.to_nat (s + 4 - s)) with (Nat.min 4 (Z.to_nat (e - s))) by lia.
  rewrite <- firstn_firstn, Hrest; reflexivity.
Qed.

(** Whatever [extract_mp4_video] returns from an offset [s >= 0] is longer
    than 1000 bytes: the window is only taken when more than 1000 bytes
    remain, and a slice accepted by the structural path spans a first
    record whose size field reads [ftyp]. *)
Lemma extract_mp4_video_long (data : bytes) (s : Z) (v : bytes) :
  0 <= s -> extract_mp4_video data s = Done (Some v) -> 1000 < len v.
Proof.
  intros H0 He.
  destruct (parse_mp4_atoms data s) as [atoms| |] eqn:Hp.
  - destruct atoms as [|x rest];
      [rewrite (extract_mp4_video_empty _ _ Hp) in He; discriminate|].
    destruct (py_last_defined (x :: rest)) as [a Ha]; [discriminate|].
    destruct (extract_mp4_video_cases _ _ _ _ Hp Ha) as [[_ [Hs E]]|[_ E]];
      rewrite E in He; injection He as Hv.
    + subst v; apply parse_loop_invariant in Hp as [Hall Hch].
      assert (Hok : Forall (record_ok data) (x :: rest))
        by (eapply Forall_impl; [|exact Hall]; now intros y [H _]).
      pose proof (chained_last_end data _ s a Hch Hok Ha x (or_introl eq_refl))
        as Hend.
      assert (Hlast : record_ok data a)
        by (rewrite Forall_forall in Hok; apply Hok; now apply py_last_in).
      inversion Hall as [|? ? [[Hx8 Hxe] [_ [Hsize _]]] _]; subst.
      destruct Hch as [Hpos _]; destruct Hlast as [_ Hae].
      unfold structural_slice in *; rewrite Hpos in *.
      rewrite (prefix_of_slice data s (atom_pos a + atom_size a)) in Hsize
        by (assumption || lia).
      change (unpack_be32 ftyp) with (@Done Z 1718909296) in Hsize.
      injection Hsize as Hsize.
      rewrite len_py_slice by lia; lia.
    + rewrite window_branch_window in Hv.
      destruct (Z.ltb_spec 1000 (len data - s)); [|discriminate].
      destruct (py_in moov (window data s) || py_in mdat (window data s));
        [|discriminate].
      injection Hv as <-; unfold window; rewrite len_py_slice by lia; lia.
  - unfold extract_mp4_video, extract_mp4_video_body in He.
    rewrite Hp in He; discriminate.
  - now apply parse_mp4_atoms_terminates in Hp.
Qed.

(** ** The scan *)

(** One iteration of the scanner; the test [start_pos < 0] never fires. *)
Lemma scan_loop_step (fuel : nat) (content : bytes) (pos vi cnt : Z)
  (log : list event) :
  scan_loop (S fuel) content pos vi cnt log =
    let p := py_find ftyp content pos in
    if p =? -1 then (log, Done cnt)
    else if p <? 4 then scan_loop fuel content (p + 1) vi cnt log
    else
      match extract_mp4_video content (p - 4) with
      | Done v =>
          if truthy v && (1000 <? len (payload v)) then
            scan_loop fuel content (p + 4) (vi + 1) (cnt + 1)
              ((log ++ [Candidate (p - 4)]) ++ [WriteVideo vi (payload v)])
          else scan_loop fuel content (p + 4) vi cnt (log ++ [Candidate (p - 4)])
      | Raised => (log ++ [Candidate (p - 4)], Raised)
      | OutOfFuel => (log ++ [Candidate (p - 4)], OutOfFuel)
      end.
Proof.
  cbn [scan_loop]; cbv zeta.
  destruct (py_find ftyp content pos =? -1); [reflexivity|].
  destruct (Z.ltb_spec (py_find ftyp content pos) 4); [reflexivity|].
  destruct (Z.ltb_spec (py_find ftyp content pos - 4) 0); [lia | reflexivity].
Qed.

Lemma scan_loop_spec (content : bytes) (fuel : nat) :
  forall pos vi cnt log,
    0 <= pos <= len content ->
    (Z.to_nat (len content - pos) < fuel)%nat ->
    exists log' cnt',
      scan_loop fuel content pos vi cnt log = (log ++ log', Done cnt')
      /\ (forall s, In (Candidate s) log' ->
            0 <= s /\ pos <= s + 4 /\ occurs_at ftyp content (s + 4))
      /\ (forall q, pos <= q -> 4 <= q -> occurs_at ftyp content q ->
            In (Candidate (q - 4)) log')
      /\ Forall scan_event log'.
Proof.
  induction fuel as [|fuel IH]; intros pos vi cnt log Hpos Hfuel; [lia|].
  rewrite scan_loop_step; cbv zeta.
  assert (Hsub : ftyp <> []) by discriminate.
  destruct (py_find_spec ftyp content pos Hsub Hpos)
    as [[Hnone Hall]|[Hge [Hocc Hbefore]]].
  - rewrite Hnone; cbn [Z.eqb].
    exists [], cnt; rewrite app_nil_r.
    split; [reflexivity|]; split; [intros s []|]; split; [|constructor].
    intros q Hq _ Hq'; exfalso; exact (Hall q Hq Hq').
  - remember (py_find ftyp content pos) as p eqn:Hp.
    pose proof (occurs_at_fits ftyp content p Hsub Hocc) as Hfit.
    change (len ftyp) with 4 in Hfit.
    destruct (Z.eqb_spec p (-1)); [lia|].
    destruct (Z.ltb_spec p 4) as [Hlt|Hge4].
    + destruct (IH (p + 1) vi cnt log ltac:(lia) ltac:(lia))
        as [log' [cnt' [E [Hcand [Hcompl Hev]]]]].
      exists log', cnt'; split; [exact E|]; split; [|split; [|exact Hev]].
      * intros s Hs; destruct (Hcand s Hs) as [? [? ?]].
        split; [assumption|]; split; [lia | assumption].
      * intros q Hq Hq4 Hoq; apply Hcompl; try assumption.
        destruct (Z.lt_ge_cases q p) as [Hqp|Hqp]; [|lia].
        exfalso; apply (Hbefore q); [lia | exact Hoq].
    + assert (Hcompl_tail : forall tail,
                (forall q, p + 4 <= q -> 4 <= q -> occurs_at ftyp content q ->
                           In (Candidate (q - 4)) tail) ->
                forall mid q, pos <= q -> 4 <= q -> occurs_at ftyp content q ->
                  In (Candidate (q - 4)) ((Candidate (p - 4) :: mid) ++ tail)).
      { intros tail Htail mid q Hq Hq4 Hoq.
        destruct (Z.lt_ge_cases q p) as [Hqp|Hqp];
          [exfalso; apply (Hbefore q); [lia | exact Hoq]|].
        destruct (Z.eq_dec q p) as [->|Hne]; [now left|].
        destruct (Z.lt_ge_cases q (p + 4)) as [Hq4p|Hq4p];
          [exfalso; apply (ftyp_no_overlap content p q Hocc); [lia | exact Hoq]|].
        apply in_or_app; right; now apply Htail. }
      assert (Hcand_head : 0 <= p - 4 /\ pos <= p - 4 + 4
                           /\ occurs_at ftyp content (p - 4 + 4))
        by (replace (p - 4 + 4) with p by lia;
            split; [lia|]; split; [lia | exact Hocc]).
      destruct (extract_mp4_video_total content (p - 4)) as [v ->].
      destruct (truthy v && (1000 <? len (payload v))) eqn:Hacc.
      * apply andb_true_iff in Hacc as [_ Hlong]; apply Z.ltb_lt in Hlong.
        destruct (IH (p + 4) (vi + 1) (cnt + 1)
                    ((log ++ [Candidate (p - 4)]) ++ [WriteVideo vi (payload v)])
                    ltac:(lia) ltac:(lia))
          as [log' [cnt' [E [Hcand [Hcompl Hev]]]]].
        exists ((Candidate (p - 4) :: [WriteVideo vi (payload v)]) ++ log'), cnt'.
        split; [rewrite E, <- !app_assoc; reflexivity|].
        split; [|split].
        -- intros s [[= <-]|[[=]|Hs]]; [exact Hcand_head|].
           destruct (Hcand s Hs) as [? [? ?]].
           split; [assumption|]; split; [lia | assumption].
        -- now apply Hcompl_tail.
        -- constructor; [exact I|]; constructor; [exact Hlong | exact Hev].
      * destruct (IH (p + 4) vi cnt (log ++ [Candidate (p - 4)])
                    ltac:(lia) ltac:(lia))
          as [log' [cnt' [E [Hcand [Hcompl Hev]]]]].
        exists ((Candidate (p - 4) :: []) ++ log'), cnt'.
        split; [rewrite E, <- !app_assoc; reflexivity|].
        split; [|split].
        -- intros s [[= <-]|Hs]; [exact Hcand_head|].
           destruct (Hcand s Hs) as [? [? ?]].
           split; [assumption|]; split; [lia | assumption].
        -- now apply Hcompl_tail.
        -- constructor; [exact I | exact Hev].
Qed.

Lemma extract_unity_videos_spec (content : bytes) :
  exists log' cnt,
    extract_unity_videos content = (Mkdir VideosDir :: log', Done cnt)
    /\ (forall s, In (Candidate s) log' ->
          0 <= s /\ occurs_at ftyp content (s + 4))
    /\ (forall q, 4 <= q -> occurs_at ftyp content q ->
          In (Candidate (q - 4)) log')
    /\ Forall scan_event log'.
Proof.
  pose proof (len_nonneg content) as Hlen.
  destruct (scan_loop_spec content (scan_fuel content) 0 0 0 [Mkdir VideosDir])
    as [log' [cnt [E [Hcand [Hcompl Hev]]]]];
    [lia | unfold scan_fuel, len in *; lia|].
  exists log', cnt; unfold extract_unity_videos; rewrite E; cbn [app].
  split; [reflexivity|]; split; [|split; [|exact Hev]].
  - intros s Hs; destruct (Hcand s Hs) as [? [? ?]]; now split.
  - intros q Hq Hoq; apply Hcompl; [destruct Hoq; lia | exact Hq | exact Hoq].
Qed.

(** C8: every start offset the scanner passes to [extract_mp4_video] is
    [p - 4 >= 0] for an occurrence [p] of the signature; an occurrence at
    offset 0, 1, 2 or 3 is therefore never a candidate; and such an
    occurrence does not stop the scan: every occurrence at an offset
    [p >= 4] is visited, and the scan ends normally. *)
Theorem scanner_skips_early_signature (content : bytes) :
  (exists count, snd (extract_unity_videos content) = Done count)
  /\ (forall s, In (Candidate s) (fst (extract_unity_videos content)) ->
        0 <= s /\ occurs_at ftyp content (s + 4))
  /\ (forall p, 0 <= p < 4 ->
        ~ In (Candidate (p - 4)) (fst (extract_unity_videos content)))
  /\ (forall p, 4 <= p -> occurs_at ftyp content p ->
        In (Candidate (p - 4)) (fst (extract_unity_videos content))).
Proof.
  destruct (extract_unity_videos_spec content)
    as [log' [cnt [E [Hcand [Hcompl _]]]]].
  rewrite E; cbn [fst snd].
  assert (Hin : forall s, In (Candidate s) (Mkdir VideosDir :: log') ->
                          In (Candidate s) log')
    by (intros s [[=]|H]; exact H).
  split; [now exists cnt|]; split; [|split].
  - intros s Hs; now apply Hcand, Hin.
  - intros p Hp Hs; apply Hin, Hcand in Hs; lia.
  - intros p Hp Hocc; right; now apply Hcompl.
Qed.

Lemma scanner_skips_early_signature_witness :
  (0 <= 0 < 4 /\ occurs_at ftyp early_signature 0
   /\ ~ In (Candidate (0 - 4)) (fst (extract_unity_videos early_signature)))
  /\ (4 <= 8 /\ occurs_at ftyp early_signature 8
      /\ In (Candidate (8 - 4)) (fst (extract_unity_videos early_signature))).
Proof.
  assert (H0 : occurs_at ftyp early_signature 0) by (split; [lia | reflexivity]).
  assert (H8 : occurs_at ftyp early_signature 8) by (split; [lia | reflexivity]).
  destruct (scanner_skips_early_signature early_signature)
    as [_ [_ [Hearly Hlate]]].
  split.
  - split; [lia|]; split; [exact H0|]; apply Hearly; lia.
  - split; [lia|]; split; [exact H8|]; apply Hlate; [lia | exact H8].
Defined.

(** ** The structured path *)

Lemma truthy_payload (v : option bytes) :
  truthy v = true -> v = Some (payload v).
Proof. destruct v as [[|b l]|]; cbn; congruence. Qed.

Lemma export_object_spec (i : nat) (obj : unity_object) :
  export_object i obj = Done None
  \/ exists written,
       export_object i obj = Done (Some written) /\ unitypy_event written.
Proof.
  unfold export_object; cbv zeta.
  destruct (negb (existsb _ video_types)); [now left|].
  destruct (read obj) as [data|]; [|now left].
  set (raw_data := probe_attrs data_attrs data).
  destruct (truthy raw_data && (1000 <? len (payload raw_data))) eqn:Hraw;
    [|now left].
  apply andb_true_iff in Hraw as [_ Hlong]; apply Z.ltb_lt in Hlong.
  destruct (startswith ftyp (payload raw_data)).
  { right; eexists; split; [reflexivity | exact Hlong]. }
  destruct (negb (py_find ftyp (payload raw_data) 0 =? -1)
            && (4 <=? py_find ftyp (payload raw_data) 0)) eqn:Hpos;
    [|now left].
  apply andb_true_iff in Hpos as [_ Hpos]; apply Z.leb_le in Hpos.
  destruct (extract_mp4_video_total (payload raw_data)
              (py_find ftyp (payload raw_data) 0 - 4)) as [v Hv].
  rewrite Hv; destruct (truthy v) eqn:Htruthy; [|now left].
  right; eexists; split; [reflexivity|].
  rewrite (truthy_payload v Htruthy) in Hv.
  apply extract_mp4_video_long in Hv; [exact Hv | lia].
Qed.

Lemma export_objects_spec (objects : list unity_object) :
  forall i count log,
    exists log',
      export_objects i objects count log
      = (log ++ log', Done (count + Z.of_nat (length log')))
      /\ Forall unitypy_event log'.
Proof.
  induction objects as [|obj rest IH]; intros i count log; cbn [export_objects].
  - exists []; rewrite app_nil_r, Z.add_0_r; split; [reflexivity | constructor].
  - destruct (export_object_spec i obj) as [-> | [written [-> Hw]]].
    + apply IH.
    + destruct (IH (S i) (count + 1) (log ++ [written])) as [log' [-> Hlog']].
      exists (written :: log'); rewrite <- app_assoc; cbn [app length]; split.
      * do 2 f_equal; lia.
      * now constructor.
Qed.

Lemma extract_unitypy_videos_spec (a : adapter) :
  exists mk log',
    extract_unitypy_videos a
    = (mk ++ log', Done (Z.of_nat (length log')))
    /\ (mk = [] \/ mk = [Mkdir UnityPyDir])
    /\ Forall unitypy_event log'
    /\ (a = ImportFails \/ a = LoadFails -> log' = []).
Proof.
  destruct a as [| |objects]; cbn [extract_unitypy_videos].
  - exists [], []; repeat split; auto.
  - exists [Mkdir UnityPyDir], []; repeat split; auto.
  - destruct (export_objects_spec objects 0%nat 0 [Mkdir UnityPyDir])
      as [log' [-> Hlog']].
    exists [Mkdir UnityPyDir], log'; repeat split; auto.
    intros [|]; discriminate.
Qed.

(** ** The per-file policy *)

Lemma unitypy_log_no_scanner (mk log' : list event) :
  mk = [] \/ mk = [Mkdir UnityPyDir] -> Forall unitypy_event log' ->
  ~ scanner_ran (mk ++ log').
Proof.
  intros Hmk Hlog Hin; apply in_app_or in Hin as [Hin|Hin].
  - destruct Hmk as [-> | ->]; [contradiction|].
    destruct Hin as [[=]|[]].
  - rewrite Forall_forall in Hlog; exact (Hlog _ Hin).
Qed.

(** C9: for every input file both paths return a count (a failure to import
    or load UnityPy is reported as zero, no exception escapes); the scanner
    is run over the raw content exactly when the structured path returned
    zero, and then its count is the count of the file. *)
Theorem scanner_runs_iff_unitypy_yields_zero (f : input_file) :
  exists ulog n slog m,
    extract_unitypy_videos (unitypy_view f) = (ulog, Done n)
    /\ extract_unity_videos (content f) = (slog, Done m)
    /\ process_file f
       = (if n =? 0 then (ulog ++ slog, Done m) else (ulog, Done n))
    /\ (scanner_ran (fst (process_file f)) <-> n = 0)
    /\ (unitypy_view f = ImportFails \/ unitypy_view f = LoadFails -> n = 0).
Proof.
  destruct (extract_unitypy_videos_spec (unitypy_view f))
    as [mk [ulog [Eu [Hmk [Hulog Hfail]]]]].
  destruct (extract_unity_videos_spec (content f)) as [slog [m [Es _]]].
  exists (mk ++ ulog), (Z.of_nat (length ulog)), (Mkdir VideosDir :: slog), m.
  assert (Ep : process_file f
               = (if Z.of_nat (length ulog) =? 0
                  then ((mk ++ ulog) ++ Mkdir VideosDir :: slog, Done m)
                  else (mk ++ ulog, Done (Z.of_nat (length ulog)))))
    by (unfold process_file; rewrite Eu, Es; reflexivity).
  split; [exact Eu|]; split; [exact Es|]; split; [exact Ep|]; split.
  - rewrite Ep; destruct (Z.eqb_spec (Z.of_nat (length ulog)) 0) as [Hz|Hnz];
      cbn [fst]; split.
    + intros _; exact Hz.
    + intros _; apply in_or_app; right; now left.
    + intros Hran; exfalso.
      exact (unitypy_log_no_scanner mk ulog Hmk Hulog Hran).
    + intros Hz; contradiction.
  - intros Hf; rewrite (Hfail Hf); reflexivity.
Qed.

Lemma scanner_runs_iff_unitypy_yields_zero_witness :
  unitypy_view unloadable_file = LoadFails
  /\ scanner_ran (fst (process_file unloadable_file)).
Proof.
  split; [reflexivity|].
  destruct (scanner_runs_iff_unitypy_yields_zero unloadable_file)
    as [ulog [n [slog [m [_ [_ [_ [Hiff Hfail]]]]]]]].
  apply Hiff, Hfail; right; reflexivity.
Defined.

(** ** What is written *)

Lemma scan_event_long (e : event) : scan_event e -> long_write e.
Proof. destruct e; cbn; tauto. Qed.

Lemma unitypy_event_long (e : event) : unitypy_event e -> long_write e.
Proof. destruct e; cbn; tauto. Qed.

Lemma extract_unity_videos_long (content : bytes) :
  Forall long_write (fst (extract_unity_videos content)).
Proof.
  destruct (extract_unity_videos_spec content) as [log' [cnt [-> [_ [_ Hev]]]]].
  cbn [fst]; constructor; [exact I|].
  eapply Forall_impl; [exact scan_event_long | exact Hev].
Qed.

Lemma extract_unitypy_videos_long (a : adapter) :
  Forall long_write (fst (extract_unitypy_videos a)).
Proof.
  destruct (extract_unitypy_videos_spec a) as [mk [log' [-> [Hmk [Hev _]]]]].
  cbn [fst]; apply Forall_app; split.
  - destruct Hmk as [-> | ->]; repeat constructor.
  - eapply Forall_impl; [exact unitypy_event_long | exact Hev].
Qed.

Lemma process_file_long (f : input_file) :
  Forall long_write (fst (process_file f)).
Proof.
  pose proof (extract_unitypy_videos_long (unitypy_view f)) as Hu.
  pose proof (extract_unity_videos_long (content f)) as Hs.
  unfold process_file.
  destruct (extract_unitypy_videos (unitypy_view f)) as [ulog [n| |]];
    cbn [fst] in *; try exact Hu.
  destruct (n =? 0); [|exact Hu].
  destruct (extract_unity_videos (content f)) as [slog r]; cbn [fst] in *.
  apply Forall_app; now split.
Qed.

Lemma main_loop_long (files : list input_file) :
  forall total log,
    Forall long_write log -> Forall long_write (fst (main_loop files total log)).
Proof.
  induction files as [|f rest IH]; intros total log Hlog; cbn [main_loop];
    [exact Hlog|].
  pose proof (process_file_long f) as Hf.
  destruct (process_file f) as [log' [n| |]]; cbn [fst] in *;
    [apply IH | |]; apply Forall_app; now split.
Qed.

(** C10: every payload written to disk, by the scanner, by the structured
    path and so by a whole run over any list of files, is strictly longer
    than 1000 bytes; a candidate of 1000 bytes or less is never written. *)
Theorem written_payloads_exceed_1000 :
  (forall content e, In e (fst (extract_unity_videos content)) -> long_write e)
  /\ (forall a e, In e (fst (extract_unitypy_videos a)) -> long_write e)
  /\ (forall files e, In e (fst (main_loop files 0 [])) -> long_write e)
  /\ (forall files i v,
        In (WriteVideo i v) (fst (main_loop files 0 [])) -> len v <> 1000)
  /\ (forall files t i v,
        In (WriteUnityPy t i v) (fst (main_loop files 0 [])) -> len v <> 1000).
Proof.
  assert (Hmain : forall files e,
             In e (fst (main_loop files 0 [])) -> long_write e).
  { intros files e; apply Forall_forall, main_loop_long; constructor. }
  split; [intros c e; apply Forall_forall, extract_unity_videos_long|].
  split; [intros a e; apply Forall_forall, extract_unitypy_videos_long|].
  split; [exact Hmain|]; split.
  - intros files i v Hin; apply Hmain in Hin; cbn in Hin; lia.
  - intros files t i v Hin; apply Hmain in Hin; cbn in Hin; lia.
Qed.

Lemma written_payloads_exceed_1000_witness :
  In (WriteVideo 0 (mdat_1000 ++ [x00]))
    (fst (main_loop [unloadable_file] 0 []))
  /\ long_write (WriteVideo 0 (mdat_1000 ++ [x00])).
Proof.
  assert (Hin : In (WriteVideo 0 (mdat_1000 ++ [x00]))
                  (fst (main_loop [unloadable_file] 0 []))).
  { replace (fst (main_loop [unloadable_file] 0 []))
      with [Mkdir UnityPyDir; Mkdir VideosDir; Candidate 0;
            WriteVideo 0 (mdat_1000 ++ [x00])]
      by (vm_compute; reflexivity).
    right; right; right; left; reflexivity. }
  split; [exact Hin|].
  exact (proj1 (proj2 (proj2 written_payloads_exceed_1000))
           [unloadable_file] _ Hin).
Defined.

(** A candidate of exactly 1000 bytes is found but not written. *)
Example scanner_rejects_1000_bytes :
  fst (extract_unity_videos mdat_1000) = [Mkdir VideosDir; Candidate 0].
Proof. vm_compute; reflexivity. Qed.

(** * Further properties of the record walk *)

(** X1: every returned record is what the buffer holds at its offset: more
    than 8 bytes are left there, its length is the big-endian value of the
    four bytes at the offset and its type the four bytes after them; and the
    first record, if any, lies at the start offset. *)
Theorem parse_records_read_from_buffer (data : bytes) (s : Z)
  (atoms : list atom) :
  parse_mp4_atoms data s = Done atoms ->
  Forall (header_at data) atoms
  /\ (forall a, nth_error atoms 0 = Some a -> atom_pos a = s).
Proof.
  intros Hp; apply parse_loop_invariant in Hp as [Hall Hch]; split.
  - eapply Forall_impl; [|exact Hall]; now intros a [_ H].
  - intros a Ha; destruct atoms as [|x rest]; [discriminate|].
    injection Ha as <-; now destruct Hch.
Qed.

Lemma parse_records_read_from_buffer_witness :
  Forall (header_at three_records) three_records_atoms
  /\ (forall a, nth_error three_records_atoms 0 = Some a -> atom_pos a = 0).
Proof.
  apply (parse_records_read_from_buffer three_records 0 three_records_atoms).
  vm_compute; reflexivity.
Defined.

(** X2: the walk stops only where it cannot go on.  At the cursor reached
    after the last returned record either at most 8 bytes are left, or the
    size field there is below 8 or exceeds the bytes left. *)
Theorem parse_stops_only_at_unusable_header (data : bytes) (s : Z)
  (atoms : list atom) :
  parse_mp4_atoms data s = Done atoms ->
  len data - 8 <= cursor_after s atoms
  \/ exists size,
       unpack_be32 (py_slice data (cursor_after s atoms)
                      (cursor_after s atoms + 4)) = Done size
       /\ (size < 8 \/ len data - cursor_after s atoms < size).
Proof.
  unfold parse_mp4_atoms; generalize (parse_fuel data s) as fuel.
  intros fuel; revert s atoms.
  induction fuel as [|fuel IH]; intros pos atoms; [discriminate|].
  rewrite parse_loop_step.
  destruct (Z.ltb_spec pos (len data - 8)) as [Hlt|Hge];
    [|intros [= <-]; left; exact Hge].
  destruct (unpack_be32 _) as [size| |] eqn:Hsize; cbn [bind]; try discriminate.
  destruct (Z.ltb_spec size 8); cbn [orb];
    [intros [= <-]; right; exists size; split; [exact Hsize | now left]|].
  destruct (Z.ltb_spec (len data - pos) size);
    [intros [= <-]; right; exists size; split; [exact Hsize | now right]|].
  destruct (parse_loop fuel data (pos + size) []) as [rest| |] eqn:Hrest;
    cbn [map_result]; try discriminate.
  intros [= <-]; exact (IH _ _ Hrest).
Qed.

Lemma parse_stops_only_at_unusable_header_witness :
  cursor_after 0 [mk_atom ftyp 0 8; mk_atom moov 8 8] = 16
  /\ (len moov_then_filler - 8 <= 16
      \/ exists size,
           unpack_be32 (py_slice moov_then_filler 16 (16 + 4)) = Done size
           /\ (size < 8 \/ len moov_then_filler - 16 < size)).
Proof.
  split; [reflexivity|].
  apply (parse_stops_only_at_unusable_header moov_then_filler 0
           [mk_atom ftyp 0 8; mk_atom moov 8 8]).
  vm_compute; reflexivity.
Defined.

Lemma parse_cons_inv (data : bytes) (s : Z) (x : atom) (rest : list atom) :
  parse_mp4_atoms data s = Done (x :: rest) ->
  atom_pos x = s /\ parse_mp4_atoms data (atom_pos x + atom_size x) = Done rest.
Proof.
  rewrite parse_mp4_atoms_step.
  destruct (s <? len data - 8); [|discriminate].
  destruct (unpack_be32 _) as [size| |]; cbn [bind]; try discriminate.
  destruct ((size <? 8) || (len data - s <? size)); [discriminate|].
  destruct (parse_mp4_atoms data (s + size)) as [l| |] eqn:Hl;
    cbn [map_result]; try discriminate.
  intros [= <- <-]; cbn [atom_pos atom_size]; split; [reflexivity | exact Hl].
Qed.

(** X3: walking again from the offset of any returned record gives that
    record and the ones after it: the result from a later start is a suffix
    of the result from an earlier one. *)
Theorem parse_from_record_is_suffix (data : bytes) (s : Z) (atoms : list atom)
  (i : nat) (a : atom) :
  parse_mp4_atoms data s = Done atoms ->
  nth_error atoms i = Some a ->
  parse_mp4_atoms data (atom_pos a) = Done (skipn i atoms).
Proof.
  revert s atoms a.
  induction i as [|i IH]; intros s atoms a Hp Ha;
    (destruct atoms as [|x rest]; [discriminate|]); cbn in Ha.
  - injection Ha as <-; destruct (parse_cons_inv _ _ _ _ Hp) as [-> _].
    exact Hp.
  - destruct (parse_cons_inv _ _ _ _ Hp) as [_ Hrest].
    exact (IH _ _ _ Hrest Ha).
Qed.

Lemma parse_from_record_is_suffix_witness :
  parse_mp4_atoms three_records 16
  = Done [mk_atom moov 16 8; mk_atom mdat 24 12].
Proof.
  apply (parse_from_record_is_suffix three_records 0 three_records_atoms 1
           (mk_atom moov 16 8)); [vm_compute|]; reflexivity.
Defined.

Lemma byte_val_range (b : byte) : 0 <= byte_val b < 256.
Proof.
  unfold byte_val; pose proof (Byte.to_N_bounded b); lia.
Qed.

Lemma lor_below_2_32 (a b : Z) :
  0 <= a < 4294967296 -> 0 <= b < 4294967296 -> 0 <= Z.lor a b < 4294967296.
Proof.
  intros Ha Hb; assert (H0 : 0 <= Z.lor a b) by (apply Z.lor_nonneg; lia).
  split; [exact H0|].
  destruct (Z.eq_dec (Z.lor a b) 0) as [->|Hne]; [lia|].
  change 4294967296 with (2 ^ 32); apply Z.log2_lt_pow2; [lia|].
  rewrite Z.log2_lor by lia.
  assert (La : Z.log2 a < 32).
  { destruct (Z.eq_dec a 0) as [->|]; [cbn; lia|].
    apply Z.log2_lt_pow2; [lia | change (2 ^ 32) with 4294967296; lia]. }
  assert (Lb : Z.log2 b < 32).
  { destruct (Z.eq_dec b 0) as [->|]; [cbn; lia|].
    apply Z.log2_lt_pow2; [lia | change (2 ^ 32) with 4294967296; lia]. }
  lia.
Qed.

Lemma unpack_be32_range (s : bytes) (v : Z) :
  unpack_be32 s = Done v -> 0 <= v < 4294967296.
Proof.
  assert (Hinj : forall x y : Z, Done x = Done y -> x = y)
    by (intros x y [=]; assumption).
  destruct s as [|b0 [|b1 [|b2 [|b3 [|b4 s]]]]]; cbn [unpack_be32];
    try discriminate.
  intros Hv; apply Hinj in Hv; subst v.
  pose proof (byte_val_range b0); pose proof (byte_val_range b1).
  pose proof (byte_val_range b2); pose proof (byte_val_range b3).
  rewrite !Z.shiftl_mul_pow2 by lia.
  change (2 ^ 24) with 16777216; change (2 ^ 16) with 65536;
    change (2 ^ 8) with 256.
  repeat apply lor_below_2_32; lia.
Qed.

(** X4: the length of every returned record is an unsigned 32-bit value, so
    no record of 4 GiB or more is ever reported. *)
Theorem parse_record_lengths_fit_32_bits (data : bytes) (s : Z)
  (atoms : list atom) :
  parse_mp4_atoms data s = Done atoms ->
  Forall (fun a => 8 <= atom_size a < 4294967296) atoms.
Proof.
  intros Hp; apply parse_loop_invariant in Hp as [Hall _].
  eapply Forall_impl; [|exact Hall].
  intros a [[H8 _] [_ [Hsize _]]]; apply unpack_be32_range in Hsize; lia.
Qed.

Lemma parse_record_lengths_fit_32_bits_witness :
  Forall (fun a => 8 <= atom_size a < 4294967296) three_records_atoms.
Proof.
  apply (parse_record_lengths_fit_32_bits three_records 0 three_records_atoms).
  vm_compute; reflexivity.
Defined.

(** * Further properties of the structural extraction *)

(** A slice accepted by the structural path spans a first record whose size
    field holds the bytes [ftyp]. *)
Lemma structural_accept_span (data : bytes) (s : Z) (atoms : list atom)
  (a : atom) :
  0 <= s ->
  parse_mp4_atoms data s = Done atoms ->
  py_last atoms = Done a ->
  startswith ftyp (structural_slice data s a) = true ->
  s + 1718909296 <= atom_pos a + atom_size a <= len data.
Proof.
  intros H0 Hp Ha Hs.
  apply parse_loop_invariant in Hp as [Hall Hch].
  assert (Hok : Forall (record_ok data) atoms)
    by (eapply Forall_impl; [|exact Hall]; now intros y [H _]).
  assert (Hlast : record_ok data a)
    by (rewrite Forall_forall in Hok; apply Hok; now apply py_last_in).
  destruct atoms as [|x rest]; [discriminate|].
  pose proof (chained_last_end data _ s a Hch Hok Ha x (or_introl eq_refl))
    as Hend.
  inversion Hall as [|? ? [[Hx8 Hxe] [_ [Hsize _]]] _]; subst.
  destruct Hch as [Hpos _]; destruct Hlast as [_ Hae].
  unfold structural_slice in Hs; rewrite Hpos in *.
  rewrite (prefix_of_slice data s (atom_pos a + atom_size a)) in Hsize
    by (assumption || lia).
  change (unpack_be32 ftyp) with (@Done Z 1718909296) in Hsize.
  injection Hsize as Hsize; lia.
Qed.

Lemma extract_mp4_video_shape (data : bytes) (s : Z) :
  0 <= s ->
  extract_mp4_video data s = Done None
  \/ (1000 < len data - s
      /\ extract_mp4_video data s = Done (Some (window data s)))
  \/ (exists e, s + 1718909296 <= e <= len data
                /\ extract_mp4_video data s = Done (Some (py_slice data s e))).
Proof.
  intros H0.
  destruct (parse_mp4_atoms data s) as [atoms| |] eqn:Hp.
  - destruct atoms as [|x rest]; [left; now apply extract_mp4_video_empty|].
    destruct (py_last_defined (x :: rest)) as [a Ha]; [discriminate|].
    destruct (extract_mp4_video_cases _ _ _ _ Hp Ha) as [[_ [Hs E]]|[_ E]].
    + right; right; exists (atom_pos a + atom_size a); split; [|exact E].
      exact (structural_accept_span _ _ _ _ H0 Hp Ha Hs).
    + rewrite E, window_branch_window.
      destruct (Z.ltb_spec 1000 (len data - s)); [|now left].
      destruct (py_in moov (window data s) || py_in mdat (window data s));
        [right; left; now split | now left].
  - left; unfold extract_mp4_video, extract_mp4_video_body; now rewrite Hp.
  - now apply parse_mp4_atoms_terminates in Hp.
Qed.

Lemma len_window (data : bytes) (s : Z) :
  0 <= s -> s <= len data ->
  len (window data s) = Z.min 104857600 (len data - s).
Proof.
  intros H0 Hs; unfold window; rewrite len_py_slice by lia; lia.
Qed.

Lemma extract_short_buffer_none_helper (data : bytes) (s : Z) :
  0 <= s -> len data - s <= 1000 -> extract_mp4_video data s = Done None.
Proof.
  intros H0 Hshort.
  destruct (extract_mp4_video_shape data s H0) as [E|[[Hrem E]|[e [He E]]]];
    [exact E | lia | lia].
Qed.

(** X5: whatever is returned from an offset [s >= 0] is a verbatim slice
    [data[s:e]] of the buffer that starts at [s], ends within the buffer and
    is longer than 1000 bytes. *)
Theorem extract_returns_slice_from_start (data : bytes) (s : Z) (v : bytes) :
  0 <= s ->
  extract_mp4_video data s = Done (Some v) ->
  exists e, s + 1000 < e <= len data /\ v = py_slice data s e.
Proof.
  intros H0 Hv.
  destruct (extract_mp4_video_shape data s H0) as [E|[[Hrem E]|[e [He E]]]];
    rewrite E in Hv; [discriminate | |]; injection Hv as <-.
  - exists (Z.min (s + 104857600) (len data)); split; [lia | reflexivity].
  - exists e; split; [lia | reflexivity].
Qed.

Lemma extract_returns_slice_from_start_witness :
  exists e, 0 + 1000 < e <= len moov_then_filler
            /\ window moov_then_filler 0 = py_slice moov_then_filler 0 e.
Proof.
  apply (extract_returns_slice_from_start moov_then_filler 0);
    [lia | vm_compute; reflexivity].
Defined.

(** X6: [extract_mp4_video] always returns, with a slice or with [None],
    for every buffer and every integer start position: the walk terminates,
    and the result is [None] when the walk raised or found no record. *)
Theorem extract_mp4_video_always_returns (data : bytes) (s : Z) :
  exists v,
    extract_mp4_video data s = Done v
    /\ (parse_mp4_atoms data s = Raised \/ parse_mp4_atoms data s = Done [] ->
        v = None).
Proof.
  destruct (extract_mp4_video_total data s) as [v Hv].
  exists v; split; [exact Hv|].
  intros [Hp|Hp].
  - unfold extract_mp4_video, extract_mp4_video_body in Hv.
    rewrite Hp in Hv; cbn in Hv; congruence.
  - rewrite (extract_mp4_video_empty _ _ Hp) in Hv; congruence.
Qed.

(** X7: in a buffer with fewer than 1718909296 bytes from the start offset
    the structural path never returns a slice: the result is [None] or the
    window, whose length is the smaller of 100 MiB and the bytes left. *)
Theorem structural_path_needs_huge_buffer (data : bytes) (s : Z) :
  0 <= s ->
  len data - s < 1718909296 ->
  extract_mp4_video data s = Done None
  \/ (1000 < len data - s
      /\ extract_mp4_video data s = Done (Some (window data s))
      /\ len (window data s) = Z.min 104857600 (len data - s)).
Proof.
  intros H0 Hsmall.
  destruct (extract_mp4_video_shape data s H0) as [E|[[Hrem E]|[e [He E]]]].
  - now left.
  - right; split; [exact Hrem|]; split; [exact E|]; apply len_window; lia.
  - lia.
Qed.

Lemma structural_path_needs_huge_buffer_witness :
  extract_mp4_video three_records 0 = Done None
  \/ (1000 < len three_records - 0
      /\ extract_mp4_video three_records 0
         = Done (Some (window three_records 0))
      /\ len (window three_records 0)
         = Z.min 104857600 (len three_records - 0)).
Proof.
  apply (structural_path_needs_huge_buffer three_records 0);
    [lia | vm_compute; reflexivity].
Defined.

(** X8: with at most 1000 bytes from the start offset to the end of the
    buffer, [None] is returned whatever the buffer holds. *)
Theorem extract_short_buffer_none (data : bytes) (s : Z) :
  0 <= s ->
  len data - s <= 1000 ->
  extract_mp4_video data s = Done None.
Proof.
  intros H0 Hshort.
  destruct (extract_mp4_video_shape data s H0) as [E|[[Hrem E]|[e [He E]]]];
    [exact E | lia | lia].
Qed.

Lemma extract_short_buffer_none_witness :
  extract_mp4_video mdat_1000 0 = Done None.
Proof.
  apply (extract_short_buffer_none mdat_1000 0);
    [lia | vm_compute; discriminate].
Defined.

(** * Further properties of the scanner *)

Lemma scan_loop_trace (content : bytes) (fuel : nat) :
  forall pos vi cnt log,
    0 <= pos <= len content ->
    (Z.to_nat (len content - pos) < fuel)%nat ->
    exists log',
      scan_loop fuel content pos vi cnt log
      = (log ++ log', Done (cnt + Z.of_nat (length (video_indices log'))))
      /\ video_indices log' = count_up vi (length (video_indices log'))
      /\ StronglySorted (fun a b => a + 4 <= b) (candidate_starts log')
      /\ (forall s, In s (candidate_starts log') -> pos <= s + 4)
      /\ (forall i v, In (WriteVideo i v) log' ->
            exists s, In (Candidate s) log'
                      /\ extract_mp4_video content s = Done (Some v)).
Proof.
  induction fuel as [|fuel IH]; intros pos vi cnt log Hpos Hfuel; [lia|].
  rewrite scan_loop_step; cbv zeta.
  assert (Hsub : ftyp <> []) by discriminate.
  destruct (py_find_spec ftyp content pos Hsub Hpos)
    as [[Hnone _]|[Hge [Hocc _]]].
  - rewrite Hnone; cbn [Z.eqb].
    exists []; rewrite app_nil_r, Z.add_0_r.
    split; [reflexivity|]; split; [reflexivity|]; split; [constructor|].
    split; [intros s [] | intros i v []].
  - remember (py_find ftyp content pos) as p eqn:Hp.
    pose proof (occurs_at_fits ftyp content p Hsub Hocc) as Hfit.
    change (len ftyp) with 4 in Hfit.
    destruct (Z.eqb_spec p (-1)); [lia|].
    destruct (Z.ltb_spec p 4) as [Hlt|Hge4].
    + destruct (IH (p + 1) vi cnt log ltac:(lia) ltac:(lia))
        as [log' [E [Hidx [Hsorted [Hlow Hprov]]]]].
      exists log'; split; [exact E|]; split; [exact Hidx|].
      split; [exact Hsorted|]; split; [|exact Hprov].
      intros s Hs; specialize (Hlow s Hs); lia.
    + destruct (extract_mp4_video_total content (p - 4)) as [v Hv]; rewrite Hv.
      destruct (truthy v && (1000 <? len (payload v))) eqn:Hacc.
      * apply andb_true_iff in Hacc as [Htruthy _].
        destruct (IH (p + 4) (vi + 1) (cnt + 1)
                    ((log ++ [Candidate (p - 4)]) ++ [WriteVideo vi (payload v)])
                    ltac:(lia) ltac:(lia))
          as [log' [E [Hidx [Hsorted [Hlow Hprov]]]]].
        exists (Candidate (p - 4) :: WriteVideo vi (payload v) :: log').
        split; [rewrite E, <- !app_assoc; cbn [app video_indices flat_map length];
                do 2 f_equal; fold (video_indices log'); lia|].
        split; [cbn [video_indices flat_map app length];
                fold (video_indices log'); cbn [count_up]; now f_equal|].
        split; [cbn [candidate_starts flat_map app];
                fold (candidate_starts log'); constructor; [exact Hsorted|];
                apply Forall_forall; intros s Hs; specialize (Hlow s Hs); lia|].
        split.
        -- cbn [candidate_starts flat_map app]; fold (candidate_starts log').
           intros s [<-|Hs]; [lia | specialize (Hlow s Hs); lia].
        -- intros i w [[=]|[[= <- <-]|Hin]].
           ++ exists (p - 4); split; [now left|].
              now rewrite Hv, (truthy_payload v Htruthy) at 1.
           ++ destruct (Hprov i w Hin) as [s [Hs Hes]].
              exists s; split; [right; right; exact Hs | exact Hes].
      * destruct (IH (p + 4) vi cnt (log ++ [Candidate (p - 4)])
                    ltac:(lia) ltac:(lia))
          as [log' [E [Hidx [Hsorted [Hlow Hprov]]]]].
        exists (Candidate (p - 4) :: log').
        split; [rewrite E, <- !app_assoc; reflexivity|].
        split; [exact Hidx|].
        split; [cbn [candidate_starts flat_map app];
                fold (candidate_starts log'); constructor; [exact Hsorted|];
                apply Forall_forall; intros s Hs; specialize (Hlow s Hs); lia|].
        split.
        -- cbn [candidate_starts flat_map app]; fold (candidate_starts log').
           intros s [<-|Hs]; [lia | specialize (Hlow s Hs); lia].
        -- intros i w [[=]|Hin].
           destruct (Hprov i w Hin) as [s [Hs Hes]].
           exists s; split; [right; exact Hs | exact Hes].
Qed.

Lemma extract_unity_videos_trace (content : bytes) :
  exists log',
    extract_unity_videos content
    = (Mkdir VideosDir :: log', Done (Z.of_nat (length (video_indices log'))))
    /\ video_indices log' = count_up 0 (length (video_indices log'))
    /\ StronglySorted (fun a b => a + 4 <= b) (candidate_starts log')
    /\ (forall i v, In (WriteVideo i v) log' ->
          exists s, 0 <= s /\ occurs_at ftyp content (s + 4)
                    /\ extract_mp4_video content s = Done (Some v)).
Proof.
  pose proof (len_nonneg content) as Hlen.
  destruct (scan_loop_trace content (scan_fuel content) 0 0 0 [Mkdir VideosDir])
    as [log' [E [Hidx [Hsorted [_ Hprov]]]]];
    [lia | unfold scan_fuel, len in *; lia|].
  destruct (extract_unity_videos_spec content)
    as [log2 [cnt [E2 [Hcand _]]]].
  assert (Eu : extract_unity_videos content
               = (Mkdir VideosDir :: log',
                  Done (Z.of_nat (length (video_indices log')))))
    by (unfold extract_unity_videos; rewrite E; reflexivity).
  rewrite Eu in E2; injection E2 as Hlog _; subst log2.
  exists log'; split; [exact Eu|]; split; [exact Hidx|]; split; [exact Hsorted|].
  intros i v Hin; destruct (Hprov i v Hin) as [s [Hs Hes]].
  destruct (Hcand s Hs) as [H0 Hocc]; now exists s.
Qed.


(** X10: every file the scanner writes is a verbatim slice
    [content[s:e]] of the input with the signature at its bytes [4:8), of
    more than 1000 bytes and ending within the input. *)
Theorem scanner_writes_slices_of_input (content : bytes) (i : Z) (v : bytes) :
  In (WriteVideo i v) (fst (extract_unity_videos content)) ->
  exists s e,
    0 <= s /\ occurs_at ftyp content (s + 4)
    /\ s + 1000 < e <= len content
    /\ v = py_slice content s e.
Proof.
  destruct (extract_unity_videos_trace content) as [log' [-> [_ [_ Hprov]]]].
  cbn [fst]; intros [[=]|Hin].
  destruct (Hprov i v Hin) as [s [H0 [Hocc Hes]]].
  destruct (extract_mp4_video_shape content s H0) as [E|[[Hrem E]|[e [He E]]]];
    rewrite E in Hes; [discriminate | |]; injection Hes as <-.
  - exists s, (Z.min (s + 104857600) (len content)).
    split; [exact H0|]; split; [exact Hocc|]; split; [lia | reflexivity].
  - exists s, e.
    split; [exact H0|]; split; [exact Hocc|]; split; [lia | reflexivity].
Qed.

Lemma scanner_writes_slices_of_input_witness :
  exists s e,
    0 <= s /\ occurs_at ftyp (mdat_1000 ++ [x00]) (s + 4)
    /\ s + 1000 < e <= len (mdat_1000 ++ [x00])
    /\ mdat_1000 ++ [x00] = py_slice (mdat_1000 ++ [x00]) s e.
Proof.
  apply (scanner_writes_slices_of_input (mdat_1000 ++ [x00]) 0).
  replace (fst (extract_unity_videos (mdat_1000 ++ [x00])))
    with [Mkdir VideosDir; Candidate 0; WriteVideo 0 (mdat_1000 ++ [x00])]
    by (vm_compute; reflexivity).
  right; right; left; reflexivity.
Defined.

(** X11: the start offsets tried by the scanner are strictly increasing and
    at least four bytes apart, so no offset is tried twice. *)
Theorem scanner_candidates_increase (content : bytes) :
  StronglySorted (fun a b => a + 4 <= b)
    (candidate_starts (fst (extract_unity_videos content))).
Proof.
  destruct (extract_unity_videos_trace content) as [log' [-> [_ [Hsorted _]]]].
  exact Hsorted.
Qed.

(** X12: an input without any occurrence of the signature gives no output:
    the directory is created, nothing is tried or written and the count is
    zero. *)
Theorem scanner_without_signature (content : bytes) :
  (forall p, ~ occurs_at ftyp content p) ->
  extract_unity_videos content = ([Mkdir VideosDir], Done 0).
Proof.
  intros Hnone; pose proof (len_nonneg content) as Hlen.
  assert (Hsub : ftyp <> []) by discriminate.
  destruct (py_find_spec ftyp content 0 Hsub ltac:(lia))
    as [[Hfind _]|[_ [Hocc _]]]; [|now apply Hnone in Hocc].
  unfold extract_unity_videos, scan_fuel.
  rewrite scan_loop_step; cbv zeta; rewrite Hfind; reflexivity.
Qed.

Lemma scanner_without_signature_witness :
  extract_unity_videos moov = ([Mkdir VideosDir], Done 0).
Proof.
  apply (scanner_without_signature moov).
  intros p Hocc.
  assert (Hfit : p + len ftyp <= len moov)
    by (apply occurs_at_fits; [discriminate | exact Hocc]).
  destruct Hocc as [H0 Hs].
  assert (Hp : p = 0) by (change (len ftyp) with 4 in Hfit;
                          change (len moov) with 4 in Hfit; lia).
  subst p; discriminate.
Defined.

Lemma video_indices_nil (log : list event) :
  (forall i v, ~ In (WriteVideo i v) log) -> video_indices log = [].
Proof.
  induction log as [|e log IH]; intros Hno; [reflexivity|].
  cbn [video_indices flat_map]; fold (video_indices log).
  rewrite IH by (intros i v Hin; apply (Hno i v); now right).
  destruct e; try reflexivity.
  exfalso; eapply Hno; left; reflexivity.
Qed.

(** X13: an input of at most 1000 bytes never makes the scanner write a
    file, whatever it contains. *)
Theorem scanner_ignores_small_inputs (content : bytes) :
  len content <= 1000 ->
  (forall i v, ~ In (WriteVideo i v) (fst (extract_unity_videos content)))
  /\ snd (extract_unity_videos content) = Done 0.
Proof.
  intros Hsmall.
  destruct (extract_unity_videos_trace content) as [log' [-> [_ [_ Hprov]]]].
  assert (Hno : forall i v, ~ In (WriteVideo i v) log').
  { intros i v Hin; destruct (Hprov i v Hin) as [s [H0 [_ Hes]]].
    rewrite extract_short_buffer_none_helper in Hes by lia; discriminate. }
  cbn [fst snd]; split.
  - intros i v [[=]|Hin]; exact (Hno i v Hin).
  - now rewrite (video_indices_nil log' Hno).
Qed.

Lemma scanner_ignores_small_inputs_witness :
  (forall i v, ~ In (WriteVideo i v) (fst (extract_unity_videos mdat_1000)))
  /\ snd (extract_unity_videos mdat_1000) = Done 0.
Proof.
  apply (scanner_ignores_small_inputs mdat_1000); vm_compute; discriminate.
Defined.

(** * Further properties of the structured path *)

Lemma truthy_some (v : option bytes) :
  truthy v = true -> exists b, v = Some b /\ payload v = b.
Proof. destruct v as [[|x l]|]; cbn; try discriminate; eauto. Qed.

(** What lies behind a file written for object [i]. *)
Lemma export_object_written (i : nat) (obj : unity_object) (w : event) :
  export_object i obj = Done (Some w) ->
  exists t data raw v,
    w = WriteUnityPy t i v
    /\ type_name obj = Some t /\ In t video_types
    /\ read obj = Some data /\ probe_attrs data_attrs data = Some raw
    /\ 1000 < len raw
    /\ ((startswith ftyp raw = true /\ v = raw)
        \/ (startswith ftyp raw = false
            /\ 4 <= py_find ftyp raw 0
            /\ extract_mp4_video raw (py_find ftyp raw 0 - 4) = Done (Some v))).
Proof.
  unfold export_object; cbv zeta.
  destruct (type_name obj) as [t|]; [|cbn; discriminate].
  destruct (existsb (String.eqb t) video_types) eqn:Hty; cbn [negb];
    [|discriminate].
  apply existsb_exists in Hty as [t' [Hin Heq]]; apply String.eqb_eq in Heq.
  subst t'.
  destruct (read obj) as [data|]; [|discriminate].
  destruct (truthy (probe_attrs data_attrs data)
            && (1000 <? len (payload (probe_attrs data_attrs data)))) eqn:Hraw;
    [|discriminate].
  apply andb_true_iff in Hraw as [Htruthy Hlong]; apply Z.ltb_lt in Hlong.
  destruct (truthy_some _ Htruthy) as [raw [Hprobe Hpay]].
  rewrite Hpay in *.
  destruct (startswith ftyp raw) eqn:Hstart.
  { intros [= <-]; exists t, data, raw, raw; repeat split; auto. }
  destruct (negb (py_find ftyp raw 0 =? -1) && (4 <=? py_find ftyp raw 0))
    eqn:Hpos; [|discriminate].
  apply andb_true_iff in Hpos as [_ Hpos]; apply Z.leb_le in Hpos.
  destruct (extract_mp4_video raw (py_find ftyp raw 0 - 4)) as [v| |] eqn:Hv;
    try discriminate.
  destruct (truthy v) eqn:Hv'; [|discriminate].
  destruct (truthy_some _ Hv') as [b [-> Hb]]; cbn [payload].
  intros [= <-]; exists t, data, raw, b.
  split; [reflexivity|]; split; [reflexivity|]; split; [exact Hin|].
  split; [reflexivity|]; split; [exact Hprobe|]; split; [exact Hlong|].
  right; split; [exact Hstart|]; split; [exact Hpos | exact Hv].
Qed.

Lemma export_objects_trace (objects : list unity_object) :
  forall i count log,
    exists log',
      export_objects i objects count log
      = (log ++ log', Done (count + Z.of_nat (length log')))
      /\ (length log' <= length objects)%nat
      /\ StronglySorted Nat.lt (unitypy_indices log')
      /\ (forall k, In k (unitypy_indices log') -> (i <= k)%nat)
      /\ (forall w, In w log' ->
            exists k obj, nth_error objects k = Some obj
                          /\ export_object (i + k) obj = Done (Some w)).
Proof.
  induction objects as [|obj rest IH]; intros i count log; cbn [export_objects].
  - exists []; rewrite app_nil_r, Z.add_0_r.
    split; [reflexivity|]; split; [cbn; lia|]; split; [constructor|].
    split; [intros k [] | intros w []].
  - assert (Hshift : forall log',
               (forall w, In w log' ->
                  exists k o, nth_error rest k = Some o
                              /\ export_object (S i + k) o = Done (Some w)) ->
               forall w, In w log' ->
                  exists k o, nth_error (obj :: rest) k = Some o
                              /\ export_object (i + k) o = Done (Some w)).
    { intros log' H w Hw; destruct (H w Hw) as [k [o [Hk Ho]]].
      exists (S k), o; split; [exact Hk|].
      now replace (i + S k)%nat with (S i + k)%nat by lia. }
    destruct (export_object i obj) as [[written|]| |] eqn:Hobj.
    + destruct (export_object_written i obj written Hobj)
        as [t [data [raw [v [-> _]]]]].
      destruct (IH (S i) (count + 1) (log ++ [WriteUnityPy t i v]))
        as [log' [-> [Hlen [Hsorted [Hlow Hprov]]]]].
      exists (WriteUnityPy t i v :: log').
      split; [rewrite <- app_assoc; cbn [app length]; do 2 f_equal; lia|].
      split; [cbn [length]; lia|].
      split; [cbn [unitypy_indices flat_map app]; fold (unitypy_indices log');
              constructor; [exact Hsorted|]; apply Forall_forall;
              intros k Hk; specialize (Hlow k Hk); unfold Nat.lt; lia|].
      split.
      * cbn [unitypy_indices flat_map app]; fold (unitypy_indices log').
        intros k [<-|Hk]; [lia | specialize (Hlow k Hk); lia].
      * intros w [<-|Hw]; [|exact (Hshift log' Hprov w Hw)].
        exists 0%nat, obj; split; [reflexivity|].
        now rewrite Nat.add_0_r.
    + destruct (IH (S i) count log) as [log' [-> [Hlen [Hsorted [Hlow Hprov]]]]].
      exists log'; split; [reflexivity|]; split; [cbn [length]; lia|].
      split; [exact Hsorted|]; split; [|exact (Hshift log' Hprov)].
      intros k Hk; specialize (Hlow k Hk); lia.
    + destruct (IH (S i) count log) as [log' [-> [Hlen [Hsorted [Hlow Hprov]]]]].
      exists log'; split; [reflexivity|]; split; [cbn [length]; lia|].
      split; [exact Hsorted|]; split; [|exact (Hshift log' Hprov)].
      intros k Hk; specialize (Hlow k Hk); lia.
    + destruct (export_object_spec i obj) as [E|[w [E _]]];
        rewrite E in Hobj; discriminate.
Qed.

(** X14: a file written by the structured path for index [i] comes from
    object [i] of the loaded list; that object has type [VideoClip] or
    [MovieTexture], its blob (the first of the probed attributes that gives
    bytes) is longer than 1000 bytes, and the file is either the whole blob,
    when the blob starts with the signature, or a slice of the blob that
    starts four bytes before the first occurrence of the signature. *)
Theorem unitypy_writes_come_from_video_objects (objects : list unity_object)
  (t : string) (i : nat) (v : bytes) :
  In (WriteUnityPy t i v) (fst (extract_unitypy_videos (Loaded objects))) ->
  exists obj data raw,
    nth_error objects i = Some obj
    /\ type_name obj = Some t /\ In t video_types
    /\ read obj = Some data /\ probe_attrs data_attrs data = Some raw
    /\ 1000 < len raw
    /\ ((startswith ftyp raw = true /\ v = raw)
        \/ (startswith ftyp raw = false
            /\ 4 <= py_find ftyp raw 0
            /\ exists e, py_find ftyp raw 0 - 4 + 1000 < e <= len raw
                         /\ v = py_slice raw (py_find ftyp raw 0 - 4) e)).
Proof.
  cbn [extract_unitypy_videos].
  destruct (export_objects_trace objects 0%nat 0 [Mkdir UnityPyDir])
    as [log' [-> [_ [_ [_ Hprov]]]]].
  cbn [fst app]; intros [[=]|Hin].
  destruct (Hprov _ Hin) as [k [obj [Hk Hobj]]]; cbn [Nat.add] in Hobj.
  destruct (export_object_written k obj _ Hobj)
    as [t' [data [raw [v' [[= <- <- <-] [Hty [Hin' [Hread [Hprobe [Hlong Hv]]]]]]]]]].
  exists obj, data, raw.
  split; [exact Hk|]; split; [exact Hty|]; split; [exact Hin'|].
  split; [exact Hread|]; split; [exact Hprobe|]; split; [exact Hlong|].
  destruct Hv as [Hv|[Hstart [Hpos Hv]]]; [now left|].
  right; split; [exact Hstart|]; split; [exact Hpos|].
  destruct (extract_mp4_video_shape raw (py_find ftyp raw 0 - 4) ltac:(lia))
    as [E|[[Hrem E]|[e [He E]]]]; rewrite E in Hv; [discriminate | |];
    injection Hv as <-.
  - exists (Z.min (py_find ftyp raw 0 - 4 + 104857600) (len raw)).
    split; [lia | reflexivity].
  - exists e; split; [lia | reflexivity].
Qed.

Lemma unitypy_writes_come_from_video_objects_witness :
  exists obj data raw,
    nth_error [mk_object (Some "VideoClip"%string)
                 (Some [("m_VideoData"%string, VBytes (ftyp ++ zeros 1000))])]
      0 = Some obj
    /\ type_name obj = Some "VideoClip"%string
    /\ In "VideoClip"%string video_types
    /\ read obj = Some data /\ probe_attrs data_attrs data = Some raw
    /\ 1000 < len raw
    /\ ((startswith ftyp raw = true /\ ftyp ++ zeros 1000 = raw)
        \/ (startswith ftyp raw = false
            /\ 4 <= py_find ftyp raw 0
            /\ exists e, py_find ftyp raw 0 - 4 + 1000 < e <= len raw
                         /\ ftyp ++ zeros 1000
                            = py_slice raw (py_find ftyp raw 0 - 4) e)).
Proof.
  apply (unitypy_writes_come_from_video_objects _ "VideoClip"%string 0%nat
           (ftyp ++ zeros 1000)).
  right; left; reflexivity.
Defined.

(** X15: the structured path writes at most one file per object, in the
    order of the objects, and the count it returns is the number of files it
    wrote. *)
Theorem unitypy_one_file_per_object (objects : list unity_object) :
  exists log',
    extract_unitypy_videos (Loaded objects)
    = (Mkdir UnityPyDir :: log', Done (Z.of_nat (length log')))
    /\ (length log' <= length objects)%nat
    /\ length (unitypy_indices log') = length log'
    /\ StronglySorted Nat.lt (unitypy_indices log').
Proof.
  cbn [extract_unitypy_videos].
  destruct (export_objects_trace objects 0%nat 0 [Mkdir UnityPyDir])
    as [log' [-> [Hlen [Hsorted [_ Hprov]]]]].
  exists log'; split; [reflexivity|]; split; [exact Hlen|].
  split; [|exact Hsorted].
  clear Hlen Hsorted; induction log' as [|w log' IH]; [reflexivity|].
  destruct (Hprov w (or_introl eq_refl)) as [k [obj [_ Hobj]]].
  destruct (export_object_written _ _ _ Hobj) as [t [d [r [v [-> _]]]]].
  cbn [unitypy_indices flat_map app length]; fold (unitypy_indices log').
  f_equal; apply IH; intros w' Hw'; apply Hprov; now right.
Qed.

(** * Further properties of the per-file policy and of the run *)





Lemma count_writes_scan (log : list event) :
  Forall scan_event log -> count_writes log = length (video_indices log).
Proof.
  unfold count_writes; induction 1 as [|e log He _ IH]; [reflexivity|].
  destruct e; try contradiction;
    cbn [video_indices unitypy_indices flat_map app length] in *;
    fold (video_indices log) (unitypy_indices log); lia.
Qed.

Lemma extract_unity_videos_counted (content : bytes) :
  exists slog,
    extract_unity_videos content
    = (Mkdir VideosDir :: slog, Done (Z.of_nat (count_writes slog)))
    /\ Forall scan_event slog.
Proof.
  destruct (extract_unity_videos_trace content) as [slog [E _]].
  destruct (extract_unity_videos_spec content) as [slog2 [cnt [E2 [_ [_ Hev]]]]].
  rewrite E in E2; injection E2 as Hlog _; subst slog2.
  exists slog; split; [|exact Hev].
  now rewrite (count_writes_scan slog Hev).
Qed.

(** The log and the count of one file, by cases on what the structured
    path wrote. *)
Lemma process_file_shape (f : input_file) :
  exists mk ulog slog,
    (mk = [] \/ mk = [Mkdir UnityPyDir])
    /\ Forall unitypy_event ulog /\ Forall scan_event slog
    /\ ((ulog <> []
         /\ process_file f = (mk ++ ulog, Done (Z.of_nat (length ulog))))
        \/ (ulog = []
            /\ process_file f
               = (mk ++ Mkdir VideosDir :: slog,
                  Done (Z.of_nat (count_writes slog))))).
Proof.
  destruct (extract_unitypy_videos_spec (unitypy_view f))
    as [mk [ulog [Eu [Hmk [Hulog _]]]]].
  destruct (extract_unity_videos_counted (content f)) as [slog [Es Hslog]].
  exists mk, ulog, slog.
  split; [exact Hmk|]; split; [exact Hulog|]; split; [exact Hslog|].
  unfold process_file; rewrite Eu, Es.
  destruct ulog as [|w ulog].
  - right; split; [reflexivity|]; cbn [length Z.of_nat Z.eqb].
    now rewrite app_nil_r.
  - left; split; [discriminate|].
    destruct (Z.eqb_spec (Z.of_nat (length (w :: ulog))) 0) as [H|_];
      [cbn [length] in H; lia | reflexivity].
Qed.

(** X16: the outputs of one file come from one path only: either the
    structured path wrote nothing, or the scanner was not run and nothing
    was written under [video_<N>.mp4]. *)
Theorem process_file_outputs_from_one_path (f : input_file) :
  (forall t i v, ~ In (WriteUnityPy t i v) (fst (process_file f)))
  \/ (~ scanner_ran (fst (process_file f))
      /\ forall i v, ~ In (WriteVideo i v) (fst (process_file f))).
Proof.
  destruct (process_file_shape f)
    as [mk [ulog [slog [Hmk [Hulog [Hslog [[Hne ->]|[-> ->]]]]]]]]; cbn [fst].
  - right; split; [exact (unitypy_log_no_scanner mk ulog Hmk Hulog)|].
    intros i v Hin; apply in_app_or in Hin as [Hin|Hin].
    + destruct Hmk as [-> | ->]; [contradiction | destruct Hin as [[=]|[]]].
    + rewrite Forall_forall in Hulog; exact (Hulog _ Hin).
  - left; intros t i v Hin; apply in_app_or in Hin as [Hin|[[=]|Hin]].
    + destruct Hmk as [-> | ->]; [contradiction | destruct Hin as [[=]|[]]].
    + rewrite Forall_forall in Hslog; exact (Hslog _ Hin).
Qed.







(** * Collecting the input files *)

Lemma collect_names_spec (join : string -> string -> string) (root : string)
  (filenames : list string) :
  forall files,
    collect_names join root filenames files
    = files ++ map (join root)
                 (filter (fun filename => negb (hidden filename)) filenames).
Proof.
  induction filenames as [|name rest IH]; intros files; cbn [collect_names filter].
  - now rewrite app_nil_r.
  - destruct (hidden name); cbn [negb map]; rewrite IH; [reflexivity|].
    now rewrite <- app_assoc.
Qed.

Lemma collect_walk_spec (join : string -> string -> string)
  (walk : list walk_entry) :
  forall files, collect_walk join walk files = files ++ visible_files join walk.
Proof.
  induction walk as [|[[root dirs] names] rest IH]; intros files;
    cbn [collect_walk visible_files flat_map fst snd].
  - now rewrite app_nil_r.
  - fold (visible_files join rest).
    now rewrite IH, collect_names_spec, <- app_assoc.
Qed.

(** X18: for a directory the collected files are, in the order of the walk,
    the names of every visited directory that do not start with a dot, each
    joined to the path of its directory.  Names of directories are never
    looked at, so files below a hidden directory are collected; a path that
    is a file is taken as it is, hidden or not. *)
Theorem collect_files_skips_hidden_names (join : string -> string -> string)
  (input_path : string) (walk : list walk_entry) :
  collect_files join input_path true walk = [input_path]
  /\ collect_files join input_path false walk = visible_files join walk
  /\ (forall p,
        In p (collect_files join input_path false walk) <->
        exists root dirs names filename,
          In (root, dirs, names) walk /\ In filename names
          /\ hidden filename = false /\ p = join root filename).
Proof.
  split; [reflexivity|].
  assert (E : collect_files join input_path false walk = visible_files join walk)
    by (unfold collect_files; now rewrite collect_walk_spec).
  split; [exact E|]; intros p; rewrite E; unfold visible_files.
  rewrite in_flat_map; split.
  - intros [[[root dirs] names] [Hin Hp]]; cbn [fst snd] in Hp.
    apply in_map_iff in Hp as [name [<- Hname]].
    apply filter_In in Hname as [Hname Hvis].
    exists root, dirs, names, name; repeat split; try assumption.
    now destruct (hidden name).
  - intros [root [dirs [names [name [Hin [Hname [Hvis ->]]]]]]].
    exists (root, dirs, names); split; [exact Hin|]; cbn [fst snd].
    apply in_map, filter_In; split; [exact Hname | now rewrite Hvis].
Qed.
